(** * Layout-conversion passes and the Mod kernel dispatcher

    A shallow embedding of [convert_layout.cpp] (the four matcher passes
    [ConvertArmConvolutionLayout], [ConvertArmMaxPoolV1Layout],
    [ConvertArmMaxPoolV8Layout], [ConvertArmAvgPoolLayout]) and of the
    [kernel::Mod] dispatcher declared in [mod.hpp].

    The graph is a store of nodes addressed by their position; a
    [std::shared_ptr<Node>] is the position of the node, an [Output<Node>]
    is a node together with an output port.  The callbacks run in a small
    state-and-exception monad over that store. *)

From Stdlib Require Import ZArith Lia.
From stdpp Require Import base list strings.

Local Open Scope Z_scope.

(** ** Host data types used by the passes *)

(** [ov::Dimension]: an interval of lengths; [dim_max = -1] is unbounded. *)
Record Dimension := Dim { dim_min : Z; dim_max : Z }.

(** [ov::PartialShape] of static rank (the patterns of all four passes
    require [has_static_rank()]); [size()] is [length]. *)
Abbreviation PartialShape := (list Dimension).

Abbreviation Shape := (list nat).
Abbreviation Strides := (list nat).
Abbreviation CoordinateDiff := (list Z).

Inductive PadType := EXPLICIT | SAME_UPPER | SAME_LOWER | VALID.
Inductive RoundingType := FLOOR | CEIL.
Inductive element_type := boolean | bf16 | f16 | f32 | f64 | i8 | i16 | i32 | i64
                        | u8 | u16 | u32 | u64.

Abbreviation NodeId := nat.

(** [ov::Output<Node>]: a node and the index of one of its outputs. *)
Record Output := mkOutput { get_node : NodeId; get_index : nat }.

#[global] Instance Dimension_eq_dec : EqDecision Dimension.
Proof. solve_decision. Defined.
#[global] Instance PadType_eq_dec : EqDecision PadType.
Proof. solve_decision. Defined.
#[global] Instance RoundingType_eq_dec : EqDecision RoundingType.
Proof. solve_decision. Defined.
#[global] Instance element_type_eq_dec : EqDecision element_type.
Proof. solve_decision. Defined.
#[global] Instance Output_eq_dec : EqDecision Output.
Proof. solve_decision. Defined.

(** ** The operators the passes read and build

    Modelled from the spec: the operator classes are declared in
    [opset/opset.hpp], which is not part of this source.  Each record has
    exactly the getters the callbacks call, and [make] takes them in the order
    of the constructor calls in the source (inputs are kept by the node, see
    [Node]). *)

Module ArmConvolution.
Record t := make {
  get_strides : Strides;
  get_pads_begin : CoordinateDiff;
  get_pads_end : CoordinateDiff;
  get_dilations : Strides;
  get_auto_pad : PadType;
  output_shape : PartialShape
}.
End ArmConvolution.

Module ArmMaxPoolV1.
Record t := make {
  get_strides : Strides;
  get_pads_begin : Shape;
  get_pads_end : Shape;
  get_kernel : Shape;
  get_rounding_type : RoundingType;
  get_auto_pad : PadType;
  output_shape : PartialShape
}.
End ArmMaxPoolV1.

Module ArmMaxPoolV8.
Record t := make {
  get_strides : Strides;
  get_dilations : Strides;
  get_pads_begin : Shape;
  get_pads_end : Shape;
  get_kernel : Shape;
  get_rounding_type : RoundingType;
  get_auto_pad : PadType;
  get_index_element_type : element_type;
  get_axis : Z;
  output_shape : PartialShape
}.
End ArmMaxPoolV8.

Module ArmAvgPool.
Record t := make {
  get_strides : Strides;
  get_pads_begin : Shape;
  get_pads_end : Shape;
  get_kernel : Shape;
  get_exclude_pad : bool;
  get_rounding_type : RoundingType;
  get_auto_pad : PadType;
  output_shape : PartialShape
}.
End ArmAvgPool.

Inductive Op :=
  | OpArmConvolution (conv : ArmConvolution.t)
  | OpArmMaxPoolV1 (pool : ArmMaxPoolV1.t)
  | OpArmMaxPoolV8 (pool : ArmMaxPoolV8.t)
  | OpArmAvgPool (pool : ArmAvgPool.t)
  | OpTranspose
  | OpConstant (et : element_type) (shape : Shape) (values : list Z)
  | OpOther (type_name : string).

(** [ov::Node]: the operator, the outputs feeding its inputs
    ([input_value(i)]), the inferred shape of each output
    ([get_output_partial_shape(i)]), the friendly name and the run-time
    info. *)
Record Node := mkNode {
  node_op : Op;
  input_values : list Output;
  output_partial_shapes : list PartialShape;
  friendly_name : string;
  rt_info : list (string * string)
}.

Abbreviation Graph := (list Node).

(** ** State and exceptions *)

Inductive Result (A : Type) :=
  | Ok (a : A)
  | Throw (what : string).
Arguments Ok {A} a.
Arguments Throw {A} what.

Definition M (A : Type) : Type := Graph -> Result (A * Graph).

Definition ret {A} (a : A) : M A := fun g => Ok (a, g).

Definition bind {A B} (m : M A) (k : A -> M B) : M B :=
  fun g => match m g with
           | Ok (a, g') => k a g'
           | Throw e => Throw e
           end.

Definition throw {A} (what : string) : M A := fun _ => Throw what.

Definition get_graph : M Graph := fun g => Ok (g, g).

Definition modify (f : Graph -> Graph) : M unit := fun g => Ok (tt, f g).

Declare Scope pass_scope.
Delimit Scope pass_scope with pass.
Notation "x <~ c1 ;; c2" := (bind c1 (fun x => c2))
  (at level 100, c1 at next level, right associativity) : pass_scope.
Notation "c1 ;;; c2" := (bind c1 (fun _ => c2))
  (at level 100, right associativity) : pass_scope.
Local Open Scope pass_scope.

(** A host accessor that fails (an index past the end) throws. *)
Definition or_throw {A} (o : option A) (what : string) : M A :=
  match o with
  | Some a => ret a
  | None => throw what
  end.

Definition out_of_range : string := "out of range"%string.
Definition unsupported_rank : string := "ConvertLayout: unsupported rank"%string.

(** ** Host graph operations called by the passes

    These belong to the host framework, whose source is not part of this
    repository; they are modelled on the store as far as the callbacks use
    them. *)

(** Modelled from the spec: [Node::get_output_partial_shape(i)] of the host;
    an index past the outputs throws. *)
Definition get_output_partial_shape (n : NodeId) (i : nat) : M PartialShape :=
  g <~ get_graph ;;
  node <~ or_throw (g !! n) out_of_range ;;
  or_throw (output_partial_shapes node !! i) out_of_range.

(** Modelled from the spec: [Node::input_value(i)] of the host, the output
    feeding input [i]; an index past the inputs throws. *)
Definition input_value (n : NodeId) (i : nat) : M Output :=
  g <~ get_graph ;;
  node <~ or_throw (g !! n) out_of_range ;;
  or_throw (input_values node !! i) out_of_range.

(** Modelled from the spec: [Node::get_input_size()] of the host. *)
Definition get_input_size (n : NodeId) : M nat :=
  g <~ get_graph ;;
  node <~ or_throw (g !! n) out_of_range ;;
  ret (length (input_values node)).

(** Modelled from the spec: [Node::get_friendly_name()] of the host, for a
    node that has been given a name. *)
Definition get_friendly_name (n : NodeId) : M string :=
  g <~ get_graph ;;
  node <~ or_throw (g !! n) out_of_range ;;
  ret (friendly_name node).

(** [shape[i]] for a signed index. *)
Definition shape_at {A} (shape : list A) (i : Z) : option A :=
  if i <? 0 then None else shape !! Z.to_nat i.

(** The shape a Transpose infers: dimension [i] of the result is dimension
    [order[i]] of the data. *)
Definition permute {A} (order : list Z) (shape : list A) : option (list A) :=
  mapM (shape_at shape) order.

Definition output_shape_of (g : Graph) (o : Output) : option PartialShape :=
  node ← g !! get_node o; output_partial_shapes node !! get_index o.

Definition constant_values (g : Graph) (o : Output) : option (list Z) :=
  match g !! get_node o with
  | Some node => match node_op node with
                 | OpConstant _ _ values => Some values
                 | _ => None
                 end
  | None => None
  end.

Definition static_dim (n : nat) : Dimension := Dim (Z.of_nat n) (Z.of_nat n).

(** Modelled from the spec: the host's shape inference, run by a
    constructor.  The Arm operators declare their output shape (both outputs
    of a MaxPool-v8 have it); a Transpose permutes the shape of its data input
    by its constant order.  Where the order does not fit the data (another
    rank, or data that is no output of the graph) the host constructor rejects
    the node; here no output shape is recorded for it, and the statements
    about the transpose helpers are made for data of the rank of the order. *)
Definition infer_shapes (g : Graph) (op : Op) (inputs : list Output)
  : list PartialShape :=
  match op with
  | OpArmConvolution conv => [ArmConvolution.output_shape conv]
  | OpArmMaxPoolV1 pool => [ArmMaxPoolV1.output_shape pool]
  | OpArmMaxPoolV8 pool =>
      [ArmMaxPoolV8.output_shape pool; ArmMaxPoolV8.output_shape pool]
  | OpArmAvgPool pool => [ArmAvgPool.output_shape pool]
  | OpTranspose =>
      match inputs with
      | [data; order] =>
          match output_shape_of g data, constant_values g order with
          | Some shape, Some perm =>
              match permute perm shape with
              | Some shape' => [shape']
              | None => []
              end
          | _, _ => []
          end
      | _ => []
      end
  | OpConstant _ shape _ => [static_dim <$> shape]
  | OpOther _ => []
  end.

(** Modelled from the spec: [std::make_shared<Op>(inputs..., attributes...)]
    with a constructor of the host: a fresh node at the end of the store, with
    no friendly name and no run-time info yet.  The host reports a generated
    unique name for a node that was never named; it is not modelled, and no
    statement reads the name of a fresh node. *)
Definition make_shared (op : Op) (inputs : list Output) : M NodeId :=
  fun g => Ok (length g, g ++ [mkNode op inputs (infer_shapes g op inputs) "" []]).

Definition with_friendly_name (name : string) (node : Node) : Node :=
  mkNode (node_op node) (input_values node) (output_partial_shapes node)
         name (rt_info node).

Definition with_rt_info (info : list (string * string)) (node : Node) : Node :=
  mkNode (node_op node) (input_values node) (output_partial_shapes node)
         (friendly_name node) (info ++ rt_info node).

Definition with_input_values (f : Output -> Output) (node : Node) : Node :=
  mkNode (node_op node) (f <$> input_values node) (output_partial_shapes node)
         (friendly_name node) (rt_info node).

(** Modelled from the spec: [Node::set_friendly_name(name)] of the host. *)
Definition set_friendly_name (n : NodeId) (name : string) : M unit :=
  modify (alter (with_friendly_name name) n).

(** Modelled from the spec: [copy_runtime_info(from, {to...})] of the host;
    the run-time info of [from] is added to that of each node of [to]. *)
Definition copy_runtime_info (from : NodeId) (to : list NodeId) : M unit :=
  g <~ get_graph ;;
  node <~ or_throw (g !! from) out_of_range ;;
  modify (fun g => foldl (fun g n => alter (with_rt_info (rt_info node)) n g) g to).

(** Rewiring of one consumer input: an input fed by output [i] of [target]
    is fed by [replacements[i]] afterwards. *)
Definition replace_source_output (target : NodeId) (replacements : list Output)
    (o : Output) : Output :=
  if decide (get_node o = target)
  then default o (replacements !! get_index o)
  else o.

Definition output_size_mismatch : string := "replace_node: output size mismatch"%string.

(** Modelled from the spec: [replace_node(target, {values...})] of the host:
    every consumer of output [i] of [target] is connected to [values.at(i)]
    instead. *)
Definition replace_node_values (target : NodeId) (replacements : list Output)
  : M unit :=
  g <~ get_graph ;;
  node <~ or_throw (g !! target) out_of_range ;;
  if decide (length (output_partial_shapes node) ≤ length replacements)%nat
  then modify (fmap (with_input_values (replace_source_output target replacements)))
  else throw out_of_range.

(** Modelled from the spec: [replace_node(target, replacement)] of the host:
    both nodes must have the same number of outputs; output [i] of [target] is
    replaced by output [i] of [replacement]. *)
Definition replace_node (target replacement : NodeId) : M unit :=
  g <~ get_graph ;;
  t <~ or_throw (g !! target) out_of_range ;;
  r <~ or_throw (g !! replacement) out_of_range ;;
  if decide (length (output_partial_shapes t) = length (output_partial_shapes r))
  then replace_node_values target
         (mkOutput replacement <$> seq 0 (length (output_partial_shapes t)))
  else throw output_size_mismatch.

(** ** convert_layout.cpp *)

Definition nchw_to_nhwc : list Z := [0; 2; 3; 1].
Definition nhwc_to_nchw : list Z := [0; 3; 1; 2].

Definition ncdhw_to_ndhwc : list Z := [0; 2; 3; 4; 1].
Definition ndhwc_to_ncdhw : list Z := [0; 4; 1; 2; 3].

(** Modelled from the spec: [Constant::create(type, shape, values)] of the
    host, called as
    [Constant::create(element::i32, Shape{perm.size()}, perm)]. *)
Definition Constant_create (et : element_type) (shape : Shape) (values : list Z)
  : M NodeId :=
  make_shared (OpConstant et shape values) [].

Definition transpose_on_input (input : Output) (rank : nat) : M NodeId :=
  match rank with
  | 4%nat =>
      order <~ Constant_create i32 [length nchw_to_nhwc] nchw_to_nhwc ;;
      make_shared OpTranspose [input; mkOutput order 0]
  | 5%nat =>
      order <~ Constant_create i32 [length ncdhw_to_ndhwc] ncdhw_to_ndhwc ;;
      make_shared OpTranspose [input; mkOutput order 0]
  | _ => throw unsupported_rank
  end.

Definition transpose_on_output (input : Output) (rank : nat) : M NodeId :=
  match rank with
  | 4%nat =>
      order <~ Constant_create i32 [length nhwc_to_nchw] nhwc_to_nchw ;;
      make_shared OpTranspose [input; mkOutput order 0]
  | 5%nat =>
      order <~ Constant_create i32 [length ndhwc_to_ncdhw] ndhwc_to_ncdhw ;;
      make_shared OpTranspose [input; mkOutput order 0]
  | _ => throw unsupported_rank
  end.

(** The loop of [transpose_output_shape]: [count] iterations from index [i],
    each pushing [shape[perm[i]]]; an index past the end of [perm] or of
    [shape] has no defined result. *)
Fixpoint transpose_output_shape_loop (shape : PartialShape) (perm : list Z)
    (i count : nat) (new_output_shape : PartialShape) : option PartialShape :=
  match count with
  | O => Some new_output_shape
  | S count' =>
      match perm !! i with
      | Some p =>
          match shape_at shape p with
          | Some d =>
              transpose_output_shape_loop shape perm (S i) count'
                                          (new_output_shape ++ [d])
          | None => None
          end
      | None => None
      end
  end.

Definition transpose_output_shape_of (shape : PartialShape) (rank : nat)
  : option PartialShape :=
  let perm := if (rank =? 4)%nat then nchw_to_nhwc else ncdhw_to_ndhwc in
  transpose_output_shape_loop shape perm 0 rank [].

Definition transpose_output_shape (node : NodeId) (rank : nat) : M PartialShape :=
  shape <~ get_output_partial_shape node 0 ;;
  or_throw (transpose_output_shape_of shape rank) out_of_range.

(** Modelled from the spec: [ov::as_type_ptr<T>(node)] of the host, the typed
    view of a node, or null. *)
Definition as_ArmConvolution (op : Op) : option ArmConvolution.t :=
  match op with OpArmConvolution conv => Some conv | _ => None end.
Definition as_ArmMaxPoolV1 (op : Op) : option ArmMaxPoolV1.t :=
  match op with OpArmMaxPoolV1 pool => Some pool | _ => None end.
Definition as_ArmMaxPoolV8 (op : Op) : option ArmMaxPoolV8.t :=
  match op with OpArmMaxPoolV8 pool => Some pool | _ => None end.
Definition as_ArmAvgPool (op : Op) : option ArmAvgPool.t :=
  match op with OpArmAvgPool pool => Some pool | _ => None end.

Definition as_type_ptr {T} (cast : Op -> option T) (g : Graph) (node : NodeId)
  : option T :=
  match g !! node with
  | Some n => cast (node_op n)
  | None => None
  end.

(** [static_cast<int64_t>] of a [size_t]. *)
Definition static_cast_int64 (x : Z) : Z := (x + 2 ^ 63) mod 2 ^ 64 - 2 ^ 63.

Section Callbacks.

(** The pass configuration's predicate; [true] excludes the node. *)
Variable transformation_callback : Graph -> NodeId -> bool.

Definition ConvertArmConvolutionLayout_callback (node : NodeId) : M bool :=
  g <~ get_graph ;;
  if transformation_callback g node then ret false else
  match as_type_ptr as_ArmConvolution g node with
  | None => ret false
  | Some conv =>
    shape <~ get_output_partial_shape node 0 ;;
    let rank := length shape in
    if (rank <? 4)%nat || (5 <? rank)%nat then ret false else
    in0 <~ input_value node 0 ;;
    activations_transpose <~ transpose_on_input in0 rank ;;
    in1 <~ input_value node 1 ;;
    weights_transpose <~ transpose_on_input in1 rank ;;
    output_shape <~ transpose_output_shape node rank ;;
    input_size <~ get_input_size node ;;
    new_conv <~ (if (2 <? input_size)%nat then
                   in2 <~ input_value node 2 ;;
                   make_shared
                     (OpArmConvolution
                        (ArmConvolution.make (ArmConvolution.get_strides conv)
                                             (ArmConvolution.get_pads_begin conv)
                                             (ArmConvolution.get_pads_end conv)
                                             (ArmConvolution.get_dilations conv)
                                             (ArmConvolution.get_auto_pad conv)
                                             output_shape))
                     [mkOutput activations_transpose 0;
                      mkOutput weights_transpose 0;
                      in2]
                 else
                   make_shared
                     (OpArmConvolution
                        (ArmConvolution.make (ArmConvolution.get_strides conv)
                                             (ArmConvolution.get_pads_begin conv)
                                             (ArmConvolution.get_pads_end conv)
                                             (ArmConvolution.get_dilations conv)
                                             (ArmConvolution.get_auto_pad conv)
                                             output_shape))
                     [mkOutput activations_transpose 0;
                      mkOutput weights_transpose 0]) ;;
    transpose <~ transpose_on_output (mkOutput new_conv 0) rank ;;
    name <~ get_friendly_name node ;;
    set_friendly_name transpose name ;;;
    copy_runtime_info node
      [new_conv; activations_transpose; weights_transpose; transpose] ;;;
    replace_node node transpose ;;;
    ret true
  end.

Definition ConvertArmMaxPoolV1Layout_callback (node : NodeId) : M bool :=
  g <~ get_graph ;;
  if transformation_callback g node then ret false else
  match as_type_ptr as_ArmMaxPoolV1 g node with
  | None => ret false
  | Some pool =>
    shape <~ get_output_partial_shape node 0 ;;
    let rank := length shape in
    if (rank <? 4)%nat || (5 <? rank)%nat then ret false else
    in0 <~ input_value node 0 ;;
    activations_transpose <~ transpose_on_input in0 rank ;;
    output_shape <~ transpose_output_shape node rank ;;
    new_pool <~ make_shared
                  (OpArmMaxPoolV1
                     (ArmMaxPoolV1.make (ArmMaxPoolV1.get_strides pool)
                                        (ArmMaxPoolV1.get_pads_begin pool)
                                        (ArmMaxPoolV1.get_pads_end pool)
                                        (ArmMaxPoolV1.get_kernel pool)
                                        (ArmMaxPoolV1.get_rounding_type pool)
                                        (ArmMaxPoolV1.get_auto_pad pool)
                                        output_shape))
                  [mkOutput activations_transpose 0] ;;
    transpose <~ transpose_on_output (mkOutput new_pool 0) rank ;;
    name <~ get_friendly_name node ;;
    set_friendly_name transpose name ;;;
    copy_runtime_info node [new_pool; activations_transpose; transpose] ;;;
    replace_node node transpose ;;;
    ret true
  end.

Definition ConvertArmMaxPoolV8Layout_callback (node : NodeId) : M bool :=
  g <~ get_graph ;;
  if transformation_callback g node then ret false else
  match as_type_ptr as_ArmMaxPoolV8 g node with
  | None => ret false
  | Some pool =>
    shape <~ get_output_partial_shape node 0 ;;
    let rank := length shape in
    if (rank <? 4)%nat || (5 <? rank)%nat then ret false else
    let axis := ArmMaxPoolV8.get_axis pool in
    if (1 <? axis)
       || ((axis <? 0) && (- static_cast_int64 (Z.of_nat rank) - 1 <? axis))
    then ret false else
    in0 <~ input_value node 0 ;;
    activations_transpose <~ transpose_on_input in0 rank ;;
    output_shape <~ transpose_output_shape node rank ;;
    new_pool <~ make_shared
                  (OpArmMaxPoolV8
                     (ArmMaxPoolV8.make (ArmMaxPoolV8.get_strides pool)
                                        (ArmMaxPoolV8.get_dilations pool)
                                        (ArmMaxPoolV8.get_pads_begin pool)
                                        (ArmMaxPoolV8.get_pads_end pool)
                                        (ArmMaxPoolV8.get_kernel pool)
                                        (ArmMaxPoolV8.get_rounding_type pool)
                                        (ArmMaxPoolV8.get_auto_pad pool)
                                        (ArmMaxPoolV8.get_index_element_type pool)
                                        (ArmMaxPoolV8.get_axis pool)
                                        output_shape))
                  [mkOutput activations_transpose 0] ;;
    transpose <~ transpose_on_output (mkOutput new_pool 0) rank ;;
    name <~ get_friendly_name node ;;
    set_friendly_name transpose (String.append name ".0") ;;;
    transpose_on_indexes <~ transpose_on_output (mkOutput new_pool 1) rank ;;
    name' <~ get_friendly_name node ;;
    set_friendly_name transpose_on_indexes (String.append name' ".1") ;;;
    copy_runtime_info node
      [new_pool; activations_transpose; transpose; transpose_on_indexes] ;;;
    replace_node_values node
      [mkOutput transpose 0; mkOutput transpose_on_indexes 0] ;;;
    ret true
  end.

Definition ConvertArmAvgPoolLayout_callback (node : NodeId) : M bool :=
  g <~ get_graph ;;
  if transformation_callback g node then ret false else
  match as_type_ptr as_ArmAvgPool g node with
  | None => ret false
  | Some pool =>
    shape <~ get_output_partial_shape node 0 ;;
    let rank := length shape in
    if (rank <? 4)%nat || (5 <? rank)%nat then ret false else
    in0 <~ input_value node 0 ;;
    activations_transpose <~ transpose_on_input in0 rank ;;
    output_shape <~ transpose_output_shape node rank ;;
    new_pool <~ make_shared
                  (OpArmAvgPool
                     (ArmAvgPool.make (ArmAvgPool.get_strides pool)
                                      (ArmAvgPool.get_pads_begin pool)
                                      (ArmAvgPool.get_pads_end pool)
                                      (ArmAvgPool.get_kernel pool)
                                      (ArmAvgPool.get_exclude_pad pool)
                                      (ArmAvgPool.get_rounding_type pool)
                                      (ArmAvgPool.get_auto_pad pool)
                                      output_shape))
                  [mkOutput activations_transpose 0] ;;
    transpose <~ transpose_on_output (mkOutput new_pool 0) rank ;;
    name <~ get_friendly_name node ;;
    set_friendly_name transpose name ;;;
    copy_runtime_info node [new_pool; activations_transpose; transpose] ;;;
    replace_node node transpose ;;;
    ret true
  end.

(** The four matchers registered by [ConvertLayout]. *)
Inductive LayoutPass :=
  | ConvertArmConvolutionLayout
  | ConvertArmMaxPoolV1Layout
  | ConvertArmMaxPoolV8Layout
  | ConvertArmAvgPoolLayout.

Definition ConvertLayout : list LayoutPass :=
  [ConvertArmConvolutionLayout; ConvertArmMaxPoolV1Layout;
   ConvertArmMaxPoolV8Layout; ConvertArmAvgPoolLayout].

Definition callback (pass : LayoutPass) : NodeId -> M bool :=
  match pass with
  | ConvertArmConvolutionLayout => ConvertArmConvolutionLayout_callback
  | ConvertArmMaxPoolV1Layout => ConvertArmMaxPoolV1Layout_callback
  | ConvertArmMaxPoolV8Layout => ConvertArmMaxPoolV8Layout_callback
  | ConvertArmAvgPoolLayout => ConvertArmAvgPoolLayout_callback
  end.

End Callbacks.

(** The pattern root of each pass: [wrap_type<T>]. *)
Definition root_type (pass : LayoutPass) (op : Op) : bool :=
  match pass, op with
  | ConvertArmConvolutionLayout, OpArmConvolution _
  | ConvertArmMaxPoolV1Layout, OpArmMaxPoolV1 _
  | ConvertArmMaxPoolV8Layout, OpArmMaxPoolV8 _
  | ConvertArmAvgPoolLayout, OpArmAvgPool _ => true
  | _, _ => false
  end.

(** ** mod.hpp: the Mod kernel dispatcher

    [mod.hpp] declares the class only: its constructor and [operator()] are
    defined in a translation unit that is not part of this source, as are
    [ElementwiseBinary], [NumpyBroadcastMapper] and the specialisations of
    [ModOpImpl].  Everything below except the member [impl_] is therefore
    modelled from the documentation. *)

(** Modelled from the spec: [Type_t], the element type the dispatcher
    switches on, is declared in [cuda_type_traits.hpp], which is not part of
    this source; it names the element types of the host. *)
Inductive Type_t := t_boolean | t_bf16 | t_f16 | t_f32 | t_f64 | t_i8 | t_i16
                  | t_i32 | t_i64 | t_u8 | t_u16 | t_u32 | t_u64.

(** Row-major layout of a tensor of a given shape. *)
Fixpoint num_elements (shape : list nat) : nat :=
  match shape with
  | [] => 1
  | d :: rest => d * num_elements rest
  end.

Fixpoint coordinates (shape : list nat) (i : nat) : list nat :=
  match shape with
  | [] => []
  | _ :: rest => (i / num_elements rest)%nat
                 :: coordinates rest (i mod num_elements rest)%nat
  end.

Fixpoint flat_index (shape coords : list nat) : nat :=
  match shape, coords with
  | _ :: rest, c :: cs => c * num_elements rest + flat_index rest cs
  | _, _ => 0
  end.

(** Numpy broadcasting of one coordinate vector: along a dimension of
    extent 1 the input is read at coordinate 0. *)
Definition broadcast_coordinates (src_shape coords : list nat) : list nat :=
  zip_with (fun d c => if (d =? 1)%nat then 0%nat else c) src_shape coords.

(** Modelled from the spec: [NumpyBroadcastMapper] is not part of this
    source.  It is modelled by what "numpy broadcasting" means for an input of
    shape [src_shape] (already aligned to the rank of the output) and an output
    of shape [dst_shape]: [srcIndex] sends the flat index of an output element
    to the flat index of the input element that is broadcast to it. *)
Record NumpyBroadcastMapper := mkNumpyBroadcastMapper {
  src_shape : list nat;
  dst_shape : list nat
}.

Definition srcIndex (m : NumpyBroadcastMapper) (dst_idx : nat) : nat :=
  flat_index (src_shape m)
             (broadcast_coordinates (src_shape m)
                                    (coordinates (dst_shape m) dst_idx)).

(** Modelled from the spec: [ElementwiseBinary<Switch, OP>], the "generic
    element-wise binary dispatcher" with broadcasting, is not part of this
    source.  Its state is what the constructor of [Mod] receives; its call
    computes, for every output index below [out_num_elements], [OP] of the two
    input elements selected by the mappers.  Buffers are lists of elements of
    the type [T] selected by the element-type switch; a read past the end of an
    input has no defined result.  The stream argument only orders the launch
    and is left out. *)
Record ElementwiseBinary := mkElementwiseBinary {
  element_type_ : Type_t;
  max_threads_per_block_ : nat;
  out_num_elements_ : nat
}.

Definition elementwise_binary_element {T} (OP : T -> T -> T)
    (in0 : list T) (in0_mapper : NumpyBroadcastMapper)
    (in1 : list T) (in1_mapper : NumpyBroadcastMapper) (i : nat) : option T :=
  a ← in0 !! srcIndex in0_mapper i;
  b ← in1 !! srcIndex in1_mapper i;
  Some (OP a b).

Definition ElementwiseBinary_call {T} (OP : T -> T -> T) (self : ElementwiseBinary)
    (in0 : list T) (in0_mapper : NumpyBroadcastMapper)
    (in1 : list T) (in1_mapper : NumpyBroadcastMapper) : option (list T) :=
  mapM (elementwise_binary_element OP in0 in0_mapper in1 in1_mapper)
       (seq 0 (out_num_elements_ self)).

(** [class Mod]: its only member is
    [ElementwiseBinary<AllElementTypesSwitch, ModOpImpl> impl_]. *)
Record Mod := mkMod { impl_ : ElementwiseBinary }.

(** Modelled from the spec: the constructor and [operator()] of [Mod] are
    defined outside this source; "a thin generic-dispatch wrapper" is modelled
    as forwarding to [impl_].  [ModOpImpl] is declared in [mod.hpp] without a
    definition and is a parameter. *)
Definition Mod_new (element_type : Type_t)
    (max_threads_per_block out_num_elements : nat) : Mod :=
  mkMod (mkElementwiseBinary element_type max_threads_per_block out_num_elements).

Definition Mod_call {T} (ModOpImpl : T -> T -> T) (self : Mod)
    (in0 : list T) (in0_mapper : NumpyBroadcastMapper)
    (in1 : list T) (in1_mapper : NumpyBroadcastMapper) : option (list T) :=
  ElementwiseBinary_call ModOpImpl (impl_ self) in0 in0_mapper in1 in1_mapper.

(** Modelled from the spec: the modulo of a signed integer element type,
    with the sign of the dividend. *)
Definition ModOpImpl_int (a b : Z) : Z := Z.rem a b.

(** Coordinates inside a shape, and an input shape that numpy broadcasting
    accepts for an output shape of the same rank. *)
Definition in_bounds (coords shape : list nat) : Prop := Forall2 lt coords shape.

Definition broadcastable (src dst : list nat) : Prop :=
  Forall2 (fun s d => s = d \/ s = 1%nat) src dst.

(** ** Vocabulary of the statements *)

(** The permutation each helper attaches for a supported rank. *)
Definition input_order (rank : nat) : list Z :=
  if (rank =? 4)%nat then nchw_to_nhwc else ncdhw_to_ndhwc.
Definition output_order (rank : nat) : list Z :=
  if (rank =? 4)%nat then nhwc_to_nchw else ndhwc_to_ncdhw.

(** Transposing by [first] and then by [second] is transposing by
    [compose_order first second]. *)
Definition compose_order (first second : list Z) : option (list Z) :=
  permute second first.

Definition identity_order (rank : nat) : list Z := Z.of_nat <$> seq 0 rank.

(** Node [t] of [g] is a Transpose of [data] by the constant [order]. *)
Definition is_transpose (g : Graph) (t : NodeId) (data : Output) (order : list Z)
  : Prop :=
  exists tn c cn,
    g !! t = Some tn /\ node_op tn = OpTranspose
    /\ input_values tn = [data; mkOutput c 0]
    /\ g !! c = Some cn /\ node_op cn = OpConstant i32 [length order] order.

Definition declared_output_shape (op : Op) : option PartialShape :=
  match op with
  | OpArmConvolution conv => Some (ArmConvolution.output_shape conv)
  | OpArmMaxPoolV1 pool => Some (ArmMaxPoolV1.output_shape pool)
  | OpArmMaxPoolV8 pool => Some (ArmMaxPoolV8.output_shape pool)
  | OpArmAvgPool pool => Some (ArmAvgPool.output_shape pool)
  | _ => None
  end.

(** Inputs and outputs the operator of each pass has. *)
Definition expected_inputs (pass : LayoutPass) : nat :=
  match pass with ConvertArmConvolutionLayout => 2 | _ => 1 end.
Definition expected_outputs (pass : LayoutPass) : nat :=
  match pass with ConvertArmMaxPoolV8Layout => 2 | _ => 1 end.

(** The friendly name given to the transpose on output [j]. *)
Definition output_name (pass : LayoutPass) (name : string) (j : nat) : string :=
  match pass, j with
  | ConvertArmMaxPoolV8Layout, O => String.append name ".0"
  | ConvertArmMaxPoolV8Layout, _ => String.append name ".1"
  | _, _ => name
  end.

(** The axis of a MaxPool-v8 lets the pass through: it is at most 1 and not
    one of [-rank .. -1]. *)
Definition axis_passes_guard (op : Op) (rank : nat) : Prop :=
  match op with
  | OpArmMaxPoolV8 pool =>
      ArmMaxPoolV8.get_axis pool <= 1
      /\ (0 <= ArmMaxPoolV8.get_axis pool
          \/ ArmMaxPoolV8.get_axis pool < - Z.of_nat rank)
  | _ => True
  end.

(** The matched node is of the type of the pass. *)
Definition is_root (pass : LayoutPass) (g : Graph) (n : NodeId) : bool :=
  match g !! n with
  | Some node => root_type pass (node_op node)
  | None => false
  end.

(** The attributes of the operators, by name. *)
Inductive AttrName := strides | pads_begin | pads_end | dilations | kernel
                    | rounding_type | auto_pad | exclude_pad
                    | index_element_type | axis.

Inductive AttrValue :=
  | StridesValue (v : Strides)
  | ShapeValue (v : Shape)
  | CoordinateDiffValue (v : CoordinateDiff)
  | PadTypeValue (v : PadType)
  | RoundingTypeValue (v : RoundingType)
  | BoolValue (v : bool)
  | ElementTypeValue (v : element_type)
  | IntValue (v : Z).

#[global] Instance AttrName_eq_dec : EqDecision AttrName.
Proof. solve_decision. Defined.

Definition get_attribute (op : Op) (a : AttrName) : option AttrValue :=
  match op, a with
  | OpArmConvolution c, strides => Some (StridesValue (ArmConvolution.get_strides c))
  | OpArmConvolution c, pads_begin =>
      Some (CoordinateDiffValue (ArmConvolution.get_pads_begin c))
  | OpArmConvolution c, pads_end =>
      Some (CoordinateDiffValue (ArmConvolution.get_pads_end c))
  | OpArmConvolution c, dilations => Some (StridesValue (ArmConvolution.get_dilations c))
  | OpArmConvolution c, auto_pad => Some (PadTypeValue (ArmConvolution.get_auto_pad c))
  | OpArmMaxPoolV1 p, strides => Some (StridesValue (ArmMaxPoolV1.get_strides p))
  | OpArmMaxPoolV1 p, pads_begin => Some (ShapeValue (ArmMaxPoolV1.get_pads_begin p))
  | OpArmMaxPoolV1 p, pads_end => Some (ShapeValue (ArmMaxPoolV1.get_pads_end p))
  | OpArmMaxPoolV1 p, kernel => Some (ShapeValue (ArmMaxPoolV1.get_kernel p))
  | OpArmMaxPoolV1 p, rounding_type =>
      Some (RoundingTypeValue (ArmMaxPoolV1.get_rounding_type p))
  | OpArmMaxPoolV1 p, auto_pad => Some (PadTypeValue (ArmMaxPoolV1.get_auto_pad p))
  | OpArmMaxPoolV8 p, strides => Some (StridesValue (ArmMaxPoolV8.get_strides p))
  | OpArmMaxPoolV8 p, dilations => Some (StridesValue (ArmMaxPoolV8.get_dilations p))
  | OpArmMaxPoolV8 p, pads_begin => Some (ShapeValue (ArmMaxPoolV8.get_pads_begin p))
  | OpArmMaxPoolV8 p, pads_end => Some (ShapeValue (ArmMaxPoolV8.get_pads_end p))
  | OpArmMaxPoolV8 p, kernel => Some (ShapeValue (ArmMaxPoolV8.get_kernel p))
  | OpArmMaxPoolV8 p, rounding_type =>
      Some (RoundingTypeValue (ArmMaxPoolV8.get_rounding_type p))
  | OpArmMaxPoolV8 p, auto_pad => Some (PadTypeValue (ArmMaxPoolV8.get_auto_pad p))
  | OpArmMaxPoolV8 p, index_element_type =>
      Some (ElementTypeValue (ArmMaxPoolV8.get_index_element_type p))
  | OpArmMaxPoolV8 p, axis => Some (IntValue (ArmMaxPoolV8.get_axis p))
  | OpArmAvgPool p, strides => Some (StridesValue (ArmAvgPool.get_strides p))
  | OpArmAvgPool p, pads_begin => Some (ShapeValue (ArmAvgPool.get_pads_begin p))
  | OpArmAvgPool p, pads_end => Some (ShapeValue (ArmAvgPool.get_pads_end p))
  | OpArmAvgPool p, kernel => Some (ShapeValue (ArmAvgPool.get_kernel p))
  | OpArmAvgPool p, exclude_pad => Some (BoolValue (ArmAvgPool.get_exclude_pad p))
  | OpArmAvgPool p, rounding_type =>
      Some (RoundingTypeValue (ArmAvgPool.get_rounding_type p))
  | OpArmAvgPool p, auto_pad => Some (PadTypeValue (ArmAvgPool.get_auto_pad p))
  | _, _ => None
  end.

(** The attributes each callback hands to the constructor of the
    replacement, in the order of the call. *)
Definition copied_attributes (pass : LayoutPass) : list AttrName :=
  match pass with
  | ConvertArmConvolutionLayout =>
      [strides; pads_begin; pads_end; dilations; auto_pad]
  | ConvertArmMaxPoolV1Layout =>
      [strides; pads_begin; pads_end; kernel; rounding_type; auto_pad]
  | ConvertArmMaxPoolV8Layout =>
      [strides; dilations; pads_begin; pads_end; kernel; rounding_type; auto_pad;
       index_element_type; axis]
  | ConvertArmAvgPoolLayout =>
      [strides; pads_begin; pads_end; kernel; exclude_pad; rounding_type; auto_pad]
  end.

(** The pass, run on node [n] of [g], rewrites it and the replacement
    operator carries attribute [a] with the value the original had. *)
Definition copies_attribute (tc : Graph -> NodeId -> bool) (pass : LayoutPass)
    (a : AttrName) (g : Graph) (n : NodeId) : Prop :=
  exists node g' new_op nop v,
    g !! n = Some node
    /\ callback tc pass n g = Ok (true, g')
    /\ (length g <= new_op)%nat /\ g' !! new_op = Some nop
    /\ root_type pass (node_op nop) = true
    /\ get_attribute (node_op node) a = Some v
    /\ get_attribute (node_op nop) a = Some v.

(** No input of [node] is fed by node [n] (the graph has no loop through
    [n]). *)
Definition untouched (n : NodeId) (node : Node) : Prop :=
  Forall (fun o => get_node o <> n) (input_values node).

(** Every node of [g] is still in [g'] at its position, and each of its inputs
    that was fed by output [j] of [n] is fed by output 0 of [outs[j]]. *)
Definition replaces_outputs (g g' : Graph) (n : NodeId) (outs : list NodeId)
  : Prop :=
  forall m old,
    g !! m = Some old ->
    g' !! m
    = Some (with_input_values
              (replace_source_output n ((fun t => mkOutput t 0) <$> outs)) old).

(** Node [t] of [g'] is the transpose back to channel-first of output [j] of
    [new_op]; it has the friendly name of the pass for that output and the
    shape the original output had. *)
Definition is_output_transpose (pass : LayoutPass) (g' : Graph) (node : Node)
    (shape : PartialShape) (new_op : NodeId) (j : nat) (t : NodeId) : Prop :=
  exists tn,
    g' !! t = Some tn
    /\ is_transpose g' t (mkOutput new_op j) (output_order (length shape))
    /\ friendly_name tn = output_name pass (friendly_name node) j
    /\ output_partial_shapes tn = [shape].

(** [g'] is [g] with node [n] replaced by the subgraph of the pass: a
    transpose [act] on the activations [in0] (and one on the weights for a
    convolution), a new operator [new_op] of the type of the pass with the
    permuted output shape, and one transpose back per output, which take the
    place of [n]. *)
Definition layout_rewrite (pass : LayoutPass) (g : Graph) (n : NodeId)
    (node : Node) (in0 : Output) (shape : PartialShape) (g' : Graph) : Prop :=
  exists act new_op nop outs,
    is_transpose g' act in0 (input_order (length shape))
    /\ g' !! new_op = Some nop
    /\ root_type pass (node_op nop) = true
    /\ declared_output_shape (node_op nop)
       = transpose_output_shape_of shape (length shape)
    /\ input_values nop !! 0%nat = Some (mkOutput act 0)
    /\ (pass = ConvertArmConvolutionLayout ->
        exists in1 w,
          input_values node !! 1%nat = Some in1
          /\ is_transpose g' w in1 (input_order (length shape))
          /\ input_values nop !! 1%nat = Some (mkOutput w 0))
    /\ length outs = expected_outputs pass
    /\ (forall j t, outs !! j = Some t ->
                    is_output_transpose pass g' node shape new_op j t)
    /\ replaces_outputs g g' n outs.

(** In [g'], built from [g] by the convolution pass, the new convolution
    [new_conv] reads its first two inputs from fresh transposes of [in0] and
    [in1] and its third input straight from [in2]; the only other transpose
    added reads the new convolution. *)
Definition bias_connected_directly (g g' : Graph) (in0 in1 in2 : Output)
    (rank : nat) : Prop :=
  exists new_conv nconv conv' ta tw,
    g' !! new_conv = Some nconv
    /\ node_op nconv = OpArmConvolution conv'
    /\ input_values nconv = [mkOutput ta 0; mkOutput tw 0; in2]
    /\ is_transpose g' ta in0 (input_order rank)
    /\ is_transpose g' tw in1 (input_order rank)
    /\ (forall m tn, (length g <= m)%nat -> g' !! m = Some tn ->
                     node_op tn = OpTranspose ->
                     m = ta \/ m = tw
                     \/ input_values tn !! 0%nat = Some (mkOutput new_conv 0)).

(** A computation that does not end in the exception [what]. *)
Definition never_throws {A} (what : string) (m : M A) : Prop :=
  forall g, m g <> Throw what.

(** ** The graphs the callbacks produce, written out *)

Definition constant_node (order : list Z) : Node :=
  mkNode (OpConstant i32 [length order] order) [] [[static_dim (length order)]]
         ""%string [].

Definition transpose_node (shapes : list PartialShape) (input : Output)
    (order : NodeId) : Node :=
  mkNode OpTranspose [input; mkOutput order 0] shapes ""%string [].

Definition rewire (target : NodeId) (replacements : list Output) (g : Graph)
  : Graph :=
  with_input_values (replace_source_output target replacements) <$> g.

Definition relayout_ArmConvolution (conv : ArmConvolution.t) (shape' : PartialShape)
  : ArmConvolution.t :=
  ArmConvolution.make (ArmConvolution.get_strides conv)
    (ArmConvolution.get_pads_begin conv) (ArmConvolution.get_pads_end conv)
    (ArmConvolution.get_dilations conv) (ArmConvolution.get_auto_pad conv) shape'.

Definition relayout_ArmMaxPoolV1 (pool : ArmMaxPoolV1.t) (shape' : PartialShape)
  : ArmMaxPoolV1.t :=
  ArmMaxPoolV1.make (ArmMaxPoolV1.get_strides pool)
    (ArmMaxPoolV1.get_pads_begin pool) (ArmMaxPoolV1.get_pads_end pool)
    (ArmMaxPoolV1.get_kernel pool) (ArmMaxPoolV1.get_rounding_type pool)
    (ArmMaxPoolV1.get_auto_pad pool) shape'.

Definition relayout_ArmMaxPoolV8 (pool : ArmMaxPoolV8.t) (shape' : PartialShape)
  : ArmMaxPoolV8.t :=
  ArmMaxPoolV8.make (ArmMaxPoolV8.get_strides pool)
    (ArmMaxPoolV8.get_dilations pool) (ArmMaxPoolV8.get_pads_begin pool)
    (ArmMaxPoolV8.get_pads_end pool) (ArmMaxPoolV8.get_kernel pool)
    (ArmMaxPoolV8.get_rounding_type pool) (ArmMaxPoolV8.get_auto_pad pool)
    (ArmMaxPoolV8.get_index_element_type pool) (ArmMaxPoolV8.get_axis pool) shape'.

Definition relayout_ArmAvgPool (pool : ArmAvgPool.t) (shape' : PartialShape)
  : ArmAvgPool.t :=
  ArmAvgPool.make (ArmAvgPool.get_strides pool)
    (ArmAvgPool.get_pads_begin pool) (ArmAvgPool.get_pads_end pool)
    (ArmAvgPool.get_kernel pool) (ArmAvgPool.get_exclude_pad pool)
    (ArmAvgPool.get_rounding_type pool) (ArmAvgPool.get_auto_pad pool) shape'.

(** The operator with another declared output shape and nothing else
    changed. *)
Definition relayout (op : Op) (shape' : PartialShape) : Op :=
  match op with
  | OpArmConvolution conv => OpArmConvolution (relayout_ArmConvolution conv shape')
  | OpArmMaxPoolV1 pool => OpArmMaxPoolV1 (relayout_ArmMaxPoolV1 pool shape')
  | OpArmMaxPoolV8 pool => OpArmMaxPoolV8 (relayout_ArmMaxPoolV8 pool shape')
  | OpArmAvgPool pool => OpArmAvgPool (relayout_ArmAvgPool pool shape')
  | _ => op
  end.

(** Nodes appended by the convolution pass: positions [len .. len + 6]. *)
Definition conv_subgraph (len : nat) (node : Node) (conv : ArmConvolution.t)
    (in0 in1 : Output) (bias : list Output) (shape shape' : PartialShape)
    (sA sW : list PartialShape) : list Node :=
  let rank := length shape in
  [ constant_node (input_order rank);
    with_rt_info (rt_info node) (transpose_node sA in0 len);
    constant_node (input_order rank);
    with_rt_info (rt_info node) (transpose_node sW in1 (len + 2));
    with_rt_info (rt_info node)
      (mkNode (OpArmConvolution (relayout_ArmConvolution conv shape'))
              ([mkOutput (len + 1) 0; mkOutput (len + 3) 0] ++ bias)
              [shape'] ""%string []);
    constant_node (output_order rank);
    with_rt_info (rt_info node)
      (with_friendly_name (friendly_name node)
         (transpose_node [shape] (mkOutput (len + 4) 0) (len + 5))) ].

(** Nodes appended by the MaxPool-v1 and AvgPool passes: positions
    [len .. len + 4]. *)
Definition pool_subgraph (len : nat) (node : Node) (new_op : Op) (in0 : Output)
    (shape shape' : PartialShape) (sA : list PartialShape) : list Node :=
  let rank := length shape in
  [ constant_node (input_order rank);
    with_rt_info (rt_info node) (transpose_node sA in0 len);
    with_rt_info (rt_info node)
      (mkNode new_op [mkOutput (len + 1) 0] [shape'] ""%string []);
    constant_node (output_order rank);
    with_rt_info (rt_info node)
      (with_friendly_name (friendly_name node)
         (transpose_node [shape] (mkOutput (len + 2) 0) (len + 3))) ].

(** Nodes appended by the MaxPool-v8 pass: positions [len .. len + 6]. *)
Definition pool_v8_subgraph (len : nat) (node : Node) (new_op : Op) (in0 : Output)
    (shape shape' : PartialShape) (sA : list PartialShape) : list Node :=
  let rank := length shape in
  [ constant_node (input_order rank);
    with_rt_info (rt_info node) (transpose_node sA in0 len);
    with_rt_info (rt_info node)
      (mkNode new_op [mkOutput (len + 1) 0] [shape'; shape'] ""%string []);
    constant_node (output_order rank);
    with_rt_info (rt_info node)
      (with_friendly_name (String.append (friendly_name node) ".0")
         (transpose_node [shape] (mkOutput (len + 2) 0) (len + 3)));
    constant_node (output_order rank);
    with_rt_info (rt_info node)
      (with_friendly_name (String.append (friendly_name node) ".1")
         (transpose_node [shape] (mkOutput (len + 2) 1) (len + 5))) ].

(** ** A small network used to run the callbacks *)

Definition dims (l : list Z) : PartialShape := (fun n => Dim n n) <$> l.

Definition example_conv : ArmConvolution.t :=
  ArmConvolution.make [1; 1]%nat [0; 0] [0; 0] [1; 1]%nat EXPLICIT
                      (dims [1; 8; 30; 30]).

Definition example_pool_v1 : ArmMaxPoolV1.t :=
  ArmMaxPoolV1.make [2; 2]%nat [0; 0]%nat [0; 0]%nat [2; 2]%nat FLOOR VALID
                    (dims [1; 8; 15; 15]).

Definition example_avg_pool : ArmAvgPool.t :=
  ArmAvgPool.make [2; 2]%nat [0; 0]%nat [0; 0]%nat [2; 2]%nat true FLOOR VALID
                  (dims [1; 8; 7; 7]).

Definition example_pool_v8 (axis : Z) : ArmMaxPoolV8.t :=
  ArmMaxPoolV8.make [2; 2]%nat [1; 1]%nat [0; 0]%nat [0; 0]%nat [2; 2]%nat FLOOR
                    VALID i64 axis (dims [1; 8; 3; 3]).

(** data -> conv (with weights and bias) -> max pool v1 -> avg pool ->
    max pool v8 (axis 0) and max pool v8 (axis 2), each followed by results. *)
Definition example_graph : Graph :=
  [ mkNode (OpOther "Parameter") [] [dims [1; 3; 32; 32]] "data" [];
    mkNode (OpConstant f32 [8; 3; 3; 3]%nat []) [] [dims [8; 3; 3; 3]] "weights" [];
    mkNode (OpConstant f32 [1; 8; 1; 1]%nat []) [] [dims [1; 8; 1; 1]] "bias" [];
    mkNode (OpArmConvolution example_conv)
           [mkOutput 0 0; mkOutput 1 0; mkOutput 2 0]
           [dims [1; 8; 30; 30]] "conv" [("origin", "conv")];
    mkNode (OpArmMaxPoolV1 example_pool_v1) [mkOutput 3 0]
           [dims [1; 8; 15; 15]] "pool1" [];
    mkNode (OpArmAvgPool example_avg_pool) [mkOutput 4 0]
           [dims [1; 8; 7; 7]] "avg" [];
    mkNode (OpArmMaxPoolV8 (example_pool_v8 0)) [mkOutput 5 0]
           [dims [1; 8; 3; 3]; dims [1; 8; 3; 3]] "pool8" [];
    mkNode (OpArmMaxPoolV8 (example_pool_v8 2)) [mkOutput 5 0]
           [dims [1; 8; 3; 3]; dims [1; 8; 3; 3]] "pool8_axis2" [];
    mkNode (OpOther "Result") [mkOutput 6 0] [] "values" [];
    mkNode (OpOther "Result") [mkOutput 6 1] [] "indices" [];
    mkNode (OpOther "Result") [mkOutput 7 0] [] "values2" [] ]%string.

Definition example_conv_node : Node :=
  mkNode (OpArmConvolution example_conv)
         [mkOutput 0 0; mkOutput 1 0; mkOutput 2 0]
         [dims [1; 8; 30; 30]] "conv" [("origin", "conv")]%string.

Definition example_pool8_node : Node :=
  mkNode (OpArmMaxPoolV8 (example_pool_v8 0)) [mkOutput 5 0]
         [dims [1; 8; 3; 3]; dims [1; 8; 3; 3]] "pool8" [].

(** A MaxPool-v8 whose axis is [axis], between a parameter and a result. *)
Definition example_pool8_graph (axis : Z) : Graph :=
  [ mkNode (OpOther "Parameter") [] [dims [1; 8; 7; 7]] "data" [];
    mkNode (OpArmMaxPoolV8 (example_pool_v8 axis)) [mkOutput 0 0]
           [dims [1; 8; 3; 3]; dims [1; 8; 3; 3]] "pool8" [];
    mkNode (OpOther "Result") [mkOutput 1 0] [] "values" [] ]%string.

Definition never_excluded : Graph -> NodeId -> bool := fun _ _ => false.
Definition always_excluded : Graph -> NodeId -> bool := fun _ _ => true.

(** ** Vocabulary of the further properties *)

(** The number of nodes a pass appends when it rewrites a node. *)
Definition added_nodes (pass : LayoutPass) : nat :=
  match pass with
  | ConvertArmConvolutionLayout => 7
  | ConvertArmMaxPoolV1Layout => 5
  | ConvertArmMaxPoolV8Layout => 7
  | ConvertArmAvgPoolLayout => 5
  end.

(** Every input of every node of [g] is fed by a node of [g]. *)
Definition closed (g : Graph) : Prop :=
  forall m node o,
    g !! m = Some node -> o ∈ input_values node -> (get_node o < length g)%nat.

(** A computation that, when it returns, has appended [k] nodes. *)
Definition grows_by {A} (k : nat) (m : M A) : Prop :=
  forall g a g', m g = Ok (a, g') -> length g' = (length g + k)%nat.

(** A computation that, when it returns, returns [v] and has appended [k]
    nodes. *)
Definition finishes {A} (k : nat) (v : A) (m : M A) : Prop :=
  forall g a g', m g = Ok (a, g') -> a = v /\ length g' = (length g + k)%nat.

(** A computation that leaves the graph as it is. *)
Definition reads_only {A} (m : M A) : Prop :=
  forall g a g', m g = Ok (a, g') -> g' = g.

(** A new node reads either what the original node [node] read or another
    node of the [size] appended ones, which start at position [len]. *)
Definition reads_old_or_new (node : Node) (len size : nat) (new : Node) : Prop :=
  Forall (fun o => o ∈ input_values node
                   \/ (len <= get_node o < len + size)%nat)
         (input_values new).

(** A new node carries the run-time info of [node], unless it is a
    constant, which carries none. *)
Definition carries_rt_info (node new : Node) : Prop :=
  rt_info new = match node_op new with
                | OpConstant _ _ _ => []
                | _ => rt_info node
                end.

(** What a pass appends to [g] when it rewrites [node]: the nodes [l], among
    them the replacement operator at offset [k], and the outputs [repl] that
    take the place of the outputs of [node]. *)
Definition appended_by (pass : LayoutPass) (g : Graph) (node : Node)
    (shape' : PartialShape) (l : list Node) (repl : list Output) (k : nat)
  : Prop :=
  length l = added_nodes pass
  /\ length repl = expected_outputs pass
  /\ Forall (fun o => (length g <= get_node o < length g + length l)%nat) repl
  /\ Forall (reads_old_or_new node (length g) (length l)) l
  /\ Forall (carries_rt_info node) l
  /\ exists nop in0',
       l !! k = Some nop
       /\ node_op nop = relayout (node_op node) shape'
       /\ output_partial_shapes nop = replicate (expected_outputs pass) shape'
       /\ input_values nop !! 0%nat = Some in0'
       /\ (expected_inputs pass <= length (input_values nop))%nat
       /\ Forall (fun o => o ∈ input_values node
                           \/ (length g <= get_node o
                               /\ get_node o <> length g + k)%nat)
                 (input_values nop).

(** * Proofs *)

(** ** The callbacks on the example network *)

(** The convolution pass appends seven nodes; the last one, the transpose
    back, has the name of the convolution, and the max pool that read the
    convolution reads that transpose. *)
Example convolution_pass_on_example :
  exists g',
    callback never_excluded ConvertArmConvolutionLayout 3 example_graph = Ok (true, g')
    /\ length g' = 18%nat
    /\ friendly_name <$> g' !! 17%nat = Some "conv"%string
    /\ input_values <$> g' !! 4%nat = Some [mkOutput 17 0]
    /\ input_values <$> g' !! 15%nat
       = Some [mkOutput 12 0; mkOutput 14 0; mkOutput 2 0]
    /\ output_partial_shapes <$> g' !! 15%nat = Some [dims [1; 30; 30; 8]]
    /\ output_partial_shapes <$> g' !! 17%nat = Some [dims [1; 8; 30; 30]].
Proof. eexists. vm_compute. repeat split. Qed.

(** The MaxPool-v8 pass reconnects the two results to the two transposes. *)
Example maxpool_v8_pass_on_example :
  exists g',
    callback never_excluded ConvertArmMaxPoolV8Layout 6 example_graph = Ok (true, g')
    /\ friendly_name <$> g' !! 15%nat = Some "pool8.0"%string
    /\ friendly_name <$> g' !! 17%nat = Some "pool8.1"%string
    /\ input_values <$> g' !! 8%nat = Some [mkOutput 15 0]
    /\ input_values <$> g' !! 9%nat = Some [mkOutput 17 0].
Proof. eexists. vm_compute. repeat split. Qed.

(** A node of rank 3 is declined: nothing is built. *)
Example rank_3_is_declined :
  callback never_excluded ConvertArmMaxPoolV1Layout 0
    [mkNode (OpArmMaxPoolV1 example_pool_v1) [] [dims [1; 8; 15]] "pool" []]
  = Ok (false,
        [mkNode (OpArmMaxPoolV1 example_pool_v1) [] [dims [1; 8; 15]] "pool" []]).
Proof. reflexivity. Qed.

(** Outside the passes, the helpers throw on a rank other than 4 and 5. *)
Example transpose_on_input_rank_3_throws :
  transpose_on_input (mkOutput 0 0) 3 example_graph = Throw unsupported_rank.
Proof. reflexivity. Qed.

(** ** Running the monad *)

Lemma bind_run {A B} (m : M A) (k : A -> M B) g a g' :
  m g = Ok (a, g') -> bind m k g = k a g'.
Proof. unfold bind. by intros ->. Qed.

Lemma bind_assoc {A B C} (m : M A) (f : A -> M B) (k : B -> M C) g :
  bind (bind m f) k g = bind m (fun x => bind (f x) k) g.
Proof. unfold bind. destruct (m g) as [[a g']|]; reflexivity. Qed.

Lemma lookup_old (g l : Graph) n node :
  g !! n = Some node -> (g ++ l) !! n = Some node.
Proof. apply lookup_app_l_Some. Qed.

Lemma lookup_new (g l : Graph) k : (g ++ l) !! (length g + k)%nat = l !! k.
Proof. rewrite lookup_app_r by lia. f_equal. lia. Qed.

Lemma make_shared_run op ins (g l : Graph) :
  make_shared op ins (g ++ l)
  = Ok ((length g + length l)%nat,
        g ++ (l ++ [mkNode op ins (infer_shapes (g ++ l) op ins) ""%string []])).
Proof. unfold make_shared. by rewrite length_app, app_assoc. Qed.

Lemma transpose_on_input_run input rank (g l : Graph) :
  rank = 4%nat \/ rank = 5%nat ->
  transpose_on_input input rank (g ++ l)
  = Ok ((length g + S (length l))%nat,
        g ++ (l ++ [constant_node (input_order rank);
                    transpose_node
                      (infer_shapes (g ++ (l ++ [constant_node (input_order rank)]))
                                    OpTranspose
                                    [input; mkOutput (length g + length l) 0])
                      input (length g + length l)])).
Proof.
  intros [-> | ->]; unfold transpose_on_input, Constant_create;
    rewrite (bind_run _ _ _ _ _ (make_shared_run _ _ _ _));
    rewrite make_shared_run; rewrite length_app, <- app_assoc; simpl;
    repeat f_equal; lia.
Qed.

Lemma transpose_on_output_run input rank (g l : Graph) :
  rank = 4%nat \/ rank = 5%nat ->
  transpose_on_output input rank (g ++ l)
  = Ok ((length g + S (length l))%nat,
        g ++ (l ++ [constant_node (output_order rank);
                    transpose_node
                      (infer_shapes (g ++ (l ++ [constant_node (output_order rank)]))
                                    OpTranspose
                                    [input; mkOutput (length g + length l) 0])
                      input (length g + length l)])).
Proof.
  intros [-> | ->]; unfold transpose_on_output, Constant_create;
    rewrite (bind_run _ _ _ _ _ (make_shared_run _ _ _ _));
    rewrite make_shared_run; rewrite length_app, <- app_assoc; simpl;
    repeat f_equal; lia.
Qed.

Lemma get_output_partial_shape_run (g l : Graph) n node i shape :
  g !! n = Some node -> output_partial_shapes node !! i = Some shape ->
  get_output_partial_shape n i (g ++ l) = Ok (shape, g ++ l).
Proof.
  intros Hn Hs. unfold get_output_partial_shape, bind, get_graph, or_throw.
  rewrite (lookup_old _ _ _ _ Hn). simpl. unfold bind, ret. by rewrite Hs.
Qed.

Lemma input_value_run (g l : Graph) n node i o :
  g !! n = Some node -> input_values node !! i = Some o ->
  input_value n i (g ++ l) = Ok (o, g ++ l).
Proof.
  intros Hn Hs. unfold input_value, bind, get_graph, or_throw.
  rewrite (lookup_old _ _ _ _ Hn). simpl. unfold bind, ret. by rewrite Hs.
Qed.

Lemma get_input_size_run (g l : Graph) n node :
  g !! n = Some node ->
  get_input_size n (g ++ l) = Ok (length (input_values node), g ++ l).
Proof.
  intros Hn. unfold get_input_size, bind, get_graph, or_throw.
  by rewrite (lookup_old _ _ _ _ Hn).
Qed.

Lemma get_friendly_name_run (g l : Graph) n node :
  g !! n = Some node ->
  get_friendly_name n (g ++ l) = Ok (friendly_name node, g ++ l).
Proof.
  intros Hn. unfold get_friendly_name, bind, get_graph, or_throw.
  by rewrite (lookup_old _ _ _ _ Hn).
Qed.

Lemma set_friendly_name_run (g l : Graph) k name :
  set_friendly_name (length g + k) name (g ++ l)
  = Ok (tt, g ++ alter (with_friendly_name name) k l).
Proof. unfold set_friendly_name, modify. by rewrite alter_app_r. Qed.

Lemma copy_runtime_info_run (g l : Graph) n node (to : list nat) :
  g !! n = Some node ->
  copy_runtime_info n ((fun k => (length g + k)%nat) <$> to) (g ++ l)
  = Ok (tt, g ++ foldl (fun l k => alter (with_rt_info (rt_info node)) k l) l to).
Proof.
  intros Hn. unfold copy_runtime_info, bind, get_graph, or_throw.
  rewrite (lookup_old _ _ _ _ Hn). simpl. unfold modify. do 2 f_equal.
  revert l. induction to as [|k to IH]; intros l; simpl; [done|].
  rewrite alter_app_r. apply IH.
Qed.

Lemma replace_node_values_run (g l : Graph) n node repl :
  g !! n = Some node ->
  (length (output_partial_shapes node) <= length repl)%nat ->
  replace_node_values n repl (g ++ l) = Ok (tt, rewire n repl (g ++ l)).
Proof.
  intros Hn Hle. unfold replace_node_values, bind, get_graph, or_throw.
  rewrite (lookup_old _ _ _ _ Hn). simpl. destruct (decide _) as [?|?]; [done | lia].
Qed.

Lemma replace_node_run (g l : Graph) n node k r :
  g !! n = Some node -> l !! k = Some r ->
  length (output_partial_shapes node) = 1%nat ->
  length (output_partial_shapes r) = 1%nat ->
  replace_node n (length g + k) (g ++ l)
  = Ok (tt, rewire n [mkOutput (length g + k) 0] (g ++ l)).
Proof.
  intros Hn Hk H1 H2. unfold replace_node, bind at 1, get_graph, or_throw.
  rewrite (lookup_old _ _ _ _ Hn). simpl. unfold bind at 1. simpl.
  rewrite lookup_new, Hk. cbv [bind ret or_throw].
  destruct (decide _) as [?|?]; [| congruence].
  rewrite H1. simpl. apply (replace_node_values_run _ _ _ _ _ Hn). simpl. lia.
Qed.

Lemma replace_node_step {B} (k : unit -> M B) (g l : Graph) n node j r :
  g !! n = Some node ->
  length (output_partial_shapes node) = 1%nat ->
  l !! j = Some r ->
  length (output_partial_shapes r) = 1%nat ->
  bind (replace_node n (length g + j)) k (g ++ l)
  = k tt (rewire n [mkOutput (length g + j) 0] (g ++ l)).
Proof.
  intros Hn H1 Hj H2. apply bind_run.
  by apply replace_node_run with (node := node) (r := r).
Qed.

(** ** Shapes and permutations *)

Lemma permute_input_total {A} (shape : list A) rank :
  length shape = rank -> rank = 4%nat \/ rank = 5%nat ->
  exists shape', permute (input_order rank) shape = Some shape'.
Proof.
  intros Hlen [-> | ->].
  - destruct shape as [|a [|b [|c [|d [|e shape]]]]]; try discriminate. by eexists.
  - destruct shape as [|a [|b [|c [|d [|e [|f shape]]]]]]; try discriminate.
    by eexists.
Qed.

Lemma transpose_output_shape_of_permute shape rank :
  length shape = rank -> rank = 4%nat \/ rank = 5%nat ->
  transpose_output_shape_of shape rank = permute (input_order rank) shape.
Proof.
  intros Hlen [-> | ->].
  - by destruct shape as [|a [|b [|c [|d [|e shape]]]]].
  - by destruct shape as [|a [|b [|c [|d [|e [|f shape]]]]]].
Qed.

Lemma permute_back {A} (shape shape' : list A) rank :
  length shape = rank -> rank = 4%nat \/ rank = 5%nat ->
  permute (input_order rank) shape = Some shape' ->
  permute (output_order rank) shape' = Some shape.
Proof.
  intros Hlen [-> | ->].
  - destruct shape as [|a [|b [|c [|d [|e shape]]]]]; try discriminate.
    by intros [= <-].
  - destruct shape as [|a [|b [|c [|d [|e [|f shape]]]]]]; try discriminate.
    by intros [= <-].
Qed.

Lemma transpose_output_shape_run (g l : Graph) n node shape shape' rank :
  g !! n = Some node -> output_partial_shapes node !! 0%nat = Some shape ->
  length shape = rank -> rank = 4%nat \/ rank = 5%nat ->
  permute (input_order rank) shape = Some shape' ->
  transpose_output_shape n rank (g ++ l) = Ok (shape', g ++ l).
Proof.
  intros Hn Hs Hlen Hrank Hperm. unfold transpose_output_shape.
  rewrite (bind_run _ _ _ _ _ (get_output_partial_shape_run _ _ _ _ _ _ Hn Hs)).
  by rewrite (transpose_output_shape_of_permute _ _ Hlen Hrank), Hperm.
Qed.

Lemma infer_transpose (g : Graph) data order shape perm shape' :
  output_shape_of g data = Some shape ->
  constant_values g order = Some perm ->
  permute perm shape = Some shape' ->
  infer_shapes g OpTranspose [data; order] = [shape'].
Proof. intros H1 H2 H3. simpl. by rewrite H1, H2, H3. Qed.

Lemma infer_new_transpose (g l : Graph) k1 i k2 dnode perm shape shape' :
  l !! k1 = Some dnode ->
  output_partial_shapes dnode !! i = Some shape' ->
  l !! k2 = Some (constant_node perm) ->
  permute perm shape' = Some shape ->
  infer_shapes (g ++ l) OpTranspose
               [mkOutput (length g + k1) i; mkOutput (length g + k2) 0]
  = [shape].
Proof.
  intros H1 H2 H3 H4.
  apply infer_transpose with (shape := shape') (perm := perm); [| |done].
  - unfold output_shape_of. cbn [get_node get_index]. by rewrite lookup_new, H1.
  - unfold constant_values. cbn [get_node]. by rewrite lookup_new, H3.
Qed.

Lemma rank_check_passes (shape : PartialShape) :
  length shape = 4%nat \/ length shape = 5%nat ->
  ((length shape <? 4)%nat || (5 <? length shape)%nat) = false.
Proof. by intros [-> | ->]. Qed.

(** ** Rewiring leaves the appended nodes alone *)

Lemma replace_source_output_other n repl o :
  get_node o <> n -> replace_source_output n repl o = o.
Proof. intros H. unfold replace_source_output. by destruct (decide _). Qed.

Lemma with_input_values_untouched n repl node :
  untouched n node ->
  with_input_values (replace_source_output n repl) node = node.
Proof.
  intros H. destruct node as [op ins outs name info]. unfold with_input_values.
  simpl in *. f_equal. unfold untouched in H. simpl in H.
  induction H as [|o ins Ho _ IH]; [done|].
  rewrite fmap_cons, IH. by rewrite replace_source_output_other.
Qed.

Lemma rewire_untouched n repl (l : Graph) :
  Forall (untouched n) l -> rewire n repl l = l.
Proof.
  unfold rewire. induction 1 as [|node l Hn _ IH]; [done|].
  by rewrite fmap_cons, IH, with_input_values_untouched.
Qed.

Lemma rewire_app n repl (g l : Graph) :
  Forall (untouched n) l -> rewire n repl (g ++ l) = rewire n repl g ++ l.
Proof.
  intros H. rewrite <- (rewire_untouched n repl l H) at 2.
  apply fmap_app.
Qed.

Lemma length_rewire n repl (g : Graph) : length (rewire n repl g) = length g.
Proof. apply length_fmap. Qed.

Lemma lookup_rewired_old n repl (g l : Graph) m node :
  g !! m = Some node ->
  (rewire n repl g ++ l) !! m
  = Some (with_input_values (replace_source_output n repl) node).
Proof.
  intros H. apply lookup_app_l_Some. unfold rewire.
  by rewrite list_lookup_fmap, H.
Qed.

Lemma lookup_rewired_new n repl (g l : Graph) k :
  (rewire n repl g ++ l) !! (length g + k)%nat = l !! k.
Proof. rewrite <- (length_rewire n repl g). apply lookup_new. Qed.

(** ** What each callback returns on a node it rewrites *)

Ltac step0 E :=
  let H := fresh "E" in
  pose proof E as H; cbn [app length] in H;
  rewrite ?app_nil_r, ?Nat.add_0_r in H;
  rewrite (bind_run _ _ _ _ _ H); clear H; cbv beta.

Tactic Notation "step" uconstr(E) :=
  erewrite (bind_run _ _ _ _ _ E); cbv beta; cbn [app length].

Lemma untouched_constant n order : untouched n (constant_node order).
Proof. constructor. Qed.

Lemma untouched_transpose n shapes input order :
  get_node input <> n -> order <> n ->
  untouched n (transpose_node shapes input order).
Proof. intros H1 H2. by repeat constructor. Qed.

Lemma untouched_with_rt_info n info node :
  untouched n node -> untouched n (with_rt_info info node).
Proof. done. Qed.

Lemma untouched_with_friendly_name n name node :
  untouched n node -> untouched n (with_friendly_name name node).
Proof. done. Qed.

Lemma untouched_mkNode n op ins outs name info :
  Forall (fun o => get_node o <> n) ins ->
  untouched n (mkNode op ins outs name info).
Proof. done. Qed.

Ltac untouched_new :=
  repeat first
    [ apply Forall_nil
    | apply untouched_constant
    | apply untouched_with_rt_info
    | apply untouched_with_friendly_name
    | apply untouched_transpose
    | apply untouched_mkNode
    | assumption
    | progress cbn [get_node app]
    | lia
    | constructor ].

Lemma conv_run tc (g : Graph) n node conv in0 in1 rest shape :
  g !! n = Some node ->
  node_op node = OpArmConvolution conv ->
  input_values node = in0 :: in1 :: rest ->
  output_partial_shapes node = [shape] ->
  length shape = 4%nat \/ length shape = 5%nat ->
  tc g n = false ->
  untouched n node ->
  exists shape' sA sW,
    permute (input_order (length shape)) shape = Some shape' /\
    ConvertArmConvolutionLayout_callback tc n g
    = Ok (true, rewire n [mkOutput (length g + 6) 0] g
                ++ conv_subgraph (length g) node conv in0 in1 (take 1 rest)
                                 shape shape' sA sW).
Proof.
  intros Hn Hop Hin Hout Hrank Htc Hacyc.
  assert (Hs : output_partial_shapes node !! 0%nat = Some shape) by (by rewrite Hout).
  assert (Hi0 : input_values node !! 0%nat = Some in0) by (by rewrite Hin).
  assert (Hi1 : input_values node !! 1%nat = Some in1) by (by rewrite Hin).
  assert (Ho1 : length (output_partial_shapes node) = 1%nat) by (by rewrite Hout).
  pose proof (rank_check_passes _ Hrank) as Hrk.
  pose proof (lookup_lt_Some _ _ _ Hn) as Hlt.
  unfold untouched in Hacyc. rewrite Hin in Hacyc.
  apply Forall_cons in Hacyc as [Hn0 Hacyc]. apply Forall_cons in Hacyc as [Hn1 Hacyc].
  destruct (permute_input_total shape _ eq_refl Hrank) as (shape' & Hperm).
  pose proof (permute_back _ _ _ eq_refl Hrank Hperm) as Hback.
  exists shape'.
  destruct rest as [|in2 rest]; do 2 eexists; (split; [exact Hperm|]);
    unfold ConvertArmConvolutionLayout_callback;
    unfold bind at 1, get_graph; cbv beta iota; rewrite Htc;
    unfold as_type_ptr; rewrite Hn, Hop; cbn [as_ArmConvolution];
    step0 (get_output_partial_shape_run g [] _ _ _ _ Hn Hs);
    rewrite Hrk;
    step0 (input_value_run g [] _ _ _ _ Hn Hi0);
    step0 (transpose_on_input_run in0 _ g [] Hrank);
    step (input_value_run g _ _ _ _ _ Hn Hi1);
    step (transpose_on_input_run in1 _ g _ Hrank);
    step (transpose_output_shape_run g _ _ _ _ _ _ Hn Hs eq_refl Hrank Hperm);
    step (get_input_size_run g _ _ _ Hn);
    rewrite Hin; cbn [length Nat.ltb Nat.leb take].
  - step (make_shared_run _ _ g _).
    step (transpose_on_output_run _ _ g _ Hrank).
    erewrite (infer_new_transpose g _ 4 0 5 _ _ shape shape');
      [|reflexivity..|exact Hback].
    step (get_friendly_name_run g _ _ _ Hn).
    step (set_friendly_name_run g _ 6 _).
    cbn [alter list_alter].
    step (copy_runtime_info_run g _ n node [4; 1; 3; 6]%nat Hn).
    cbn [foldl alter list_alter].
    erewrite (replace_node_step _ g _ n node 6 _ Hn Ho1); [|reflexivity..].
    rewrite rewire_app by untouched_new. reflexivity.
  - assert (Hi2 : input_values node !! 2%nat = Some in2) by (by rewrite Hin).
    apply Forall_cons in Hacyc as [Hn2 Hacyc].
    rewrite bind_assoc.
    step (input_value_run g _ _ _ _ _ Hn Hi2).
    step (make_shared_run _ _ g _).
    step (transpose_on_output_run _ _ g _ Hrank).
    erewrite (infer_new_transpose g _ 4 0 5 _ _ shape shape');
      [|reflexivity..|exact Hback].
    step (get_friendly_name_run g _ _ _ Hn).
    step (set_friendly_name_run g _ 6 _).
    cbn [alter list_alter].
    step (copy_runtime_info_run g _ n node [4; 1; 3; 6]%nat Hn).
    cbn [foldl alter list_alter].
    erewrite (replace_node_step _ g _ n node 6 _ Hn Ho1); [|reflexivity..].
    rewrite rewire_app by untouched_new. reflexivity.
Qed.

Lemma maxpool_v1_run tc (g : Graph) n node pool in0 rest shape :
  g !! n = Some node ->
  node_op node = OpArmMaxPoolV1 pool ->
  input_values node = in0 :: rest ->
  output_partial_shapes node = [shape] ->
  length shape = 4%nat \/ length shape = 5%nat ->
  tc g n = false ->
  untouched n node ->
  exists shape' sA,
    permute (input_order (length shape)) shape = Some shape' /\
    ConvertArmMaxPoolV1Layout_callback tc n g
    = Ok (true, rewire n [mkOutput (length g + 4) 0] g
                ++ pool_subgraph (length g) node
                     (OpArmMaxPoolV1 (relayout_ArmMaxPoolV1 pool shape'))
                     in0 shape shape' sA).
Proof.
  intros Hn Hop Hin Hout Hrank Htc Hacyc.
  assert (Hs : output_partial_shapes node !! 0%nat = Some shape) by (by rewrite Hout).
  assert (Hi0 : input_values node !! 0%nat = Some in0) by (by rewrite Hin).
  assert (Ho1 : length (output_partial_shapes node) = 1%nat) by (by rewrite Hout).
  pose proof (rank_check_passes _ Hrank) as Hrk.
  pose proof (lookup_lt_Some _ _ _ Hn) as Hlt.
  unfold untouched in Hacyc. rewrite Hin in Hacyc.
  apply Forall_cons in Hacyc as [Hn0 Hacyc].
  destruct (permute_input_total shape _ eq_refl Hrank) as (shape' & Hperm).
  pose proof (permute_back _ _ _ eq_refl Hrank Hperm) as Hback.
  exists shape'. eexists. split; [exact Hperm|].
  unfold ConvertArmMaxPoolV1Layout_callback.
  unfold bind at 1, get_graph. cbv beta iota. rewrite Htc.
  unfold as_type_ptr. rewrite Hn, Hop. cbn [as_ArmMaxPoolV1].
  step0 (get_output_partial_shape_run g [] _ _ _ _ Hn Hs).
  rewrite Hrk.
  step0 (input_value_run g [] _ _ _ _ Hn Hi0).
  step0 (transpose_on_input_run in0 _ g [] Hrank).
  step (transpose_output_shape_run g _ _ _ _ _ _ Hn Hs eq_refl Hrank Hperm).
  step (make_shared_run _ _ g _).
  step (transpose_on_output_run _ _ g _ Hrank).
  erewrite (infer_new_transpose g _ 2 0 3 _ _ shape shape');
    [|reflexivity..|exact Hback].
  step (get_friendly_name_run g _ _ _ Hn).
  step (set_friendly_name_run g _ 4 _).
  cbn [alter list_alter].
  step (copy_runtime_info_run g _ n node [2; 1; 4]%nat Hn).
  cbn [foldl alter list_alter].
  erewrite (replace_node_step _ g _ n node 4 _ Hn Ho1); [|reflexivity..].
  rewrite rewire_app by untouched_new. reflexivity.
Qed.

Lemma avgpool_run tc (g : Graph) n node pool in0 rest shape :
  g !! n = Some node ->
  node_op node = OpArmAvgPool pool ->
  input_values node = in0 :: rest ->
  output_partial_shapes node = [shape] ->
  length shape = 4%nat \/ length shape = 5%nat ->
  tc g n = false ->
  untouched n node ->
  exists shape' sA,
    permute (input_order (length shape)) shape = Some shape' /\
    ConvertArmAvgPoolLayout_callback tc n g
    = Ok (true, rewire n [mkOutput (length g + 4) 0] g
                ++ pool_subgraph (length g) node
                     (OpArmAvgPool (relayout_ArmAvgPool pool shape'))
                     in0 shape shape' sA).
Proof.
  intros Hn Hop Hin Hout Hrank Htc Hacyc.
  assert (Hs : output_partial_shapes node !! 0%nat = Some shape) by (by rewrite Hout).
  assert (Hi0 : input_values node !! 0%nat = Some in0) by (by rewrite Hin).
  assert (Ho1 : length (output_partial_shapes node) = 1%nat) by (by rewrite Hout).
  pose proof (rank_check_passes _ Hrank) as Hrk.
  pose proof (lookup_lt_Some _ _ _ Hn) as Hlt.
  unfold untouched in Hacyc. rewrite Hin in Hacyc.
  apply Forall_cons in Hacyc as [Hn0 Hacyc].
  destruct (permute_input_total shape _ eq_refl Hrank) as (shape' & Hperm).
  pose proof (permute_back _ _ _ eq_refl Hrank Hperm) as Hback.
  exists shape'. eexists. split; [exact Hperm|].
  unfold ConvertArmAvgPoolLayout_callback.
  unfold bind at 1, get_graph. cbv beta iota. rewrite Htc.
  unfold as_type_ptr. rewrite Hn, Hop. cbn [as_ArmAvgPool].
  step0 (get_output_partial_shape_run g [] _ _ _ _ Hn Hs).
  rewrite Hrk.
  step0 (input_value_run g [] _ _ _ _ Hn Hi0).
  step0 (transpose_on_input_run in0 _ g [] Hrank).
  step (transpose_output_shape_run g _ _ _ _ _ _ Hn Hs eq_refl Hrank Hperm).
  step (make_shared_run _ _ g _).
  step (transpose_on_output_run _ _ g _ Hrank).
  erewrite (infer_new_transpose g _ 2 0 3 _ _ shape shape');
    [|reflexivity..|exact Hback].
  step (get_friendly_name_run g _ _ _ Hn).
  step (set_friendly_name_run g _ 4 _).
  cbn [alter list_alter].
  step (copy_runtime_info_run g _ n node [2; 1; 4]%nat Hn).
  cbn [foldl alter list_alter].
  erewrite (replace_node_step _ g _ n node 4 _ Hn Ho1); [|reflexivity..].
  rewrite rewire_app by untouched_new. reflexivity.
Qed.

(** The guard on the axis of a MaxPool-v8, for the ranks that reach it. *)
Lemma static_cast_int64_rank (rank : nat) :
  rank = 4%nat \/ rank = 5%nat ->
  static_cast_int64 (Z.of_nat rank) = Z.of_nat rank.
Proof. by intros [-> | ->]. Qed.

Lemma axis_guard_false (axis : Z) (rank : nat) :
  rank = 4%nat \/ rank = 5%nat ->
  axis <= 1 /\ (0 <= axis \/ axis < - Z.of_nat rank) ->
  (1 <? axis) || ((axis <? 0) && (- static_cast_int64 (Z.of_nat rank) - 1 <? axis))
  = false.
Proof.
  intros Hrank [H1 H2]. rewrite (static_cast_int64_rank _ Hrank).
  destruct (Z.ltb_spec 1 axis), (Z.ltb_spec axis 0),
    (Z.ltb_spec (- Z.of_nat rank - 1) axis); simpl; try reflexivity; lia.
Qed.

Lemma axis_guard_true (axis : Z) (rank : nat) :
  rank = 4%nat \/ rank = 5%nat ->
  1 < axis \/ (- Z.of_nat rank <= axis < 0) ->
  (1 <? axis) || ((axis <? 0) && (- static_cast_int64 (Z.of_nat rank) - 1 <? axis))
  = true.
Proof.
  intros Hrank H. rewrite (static_cast_int64_rank _ Hrank).
  destruct (Z.ltb_spec 1 axis), (Z.ltb_spec axis 0),
    (Z.ltb_spec (- Z.of_nat rank - 1) axis); simpl; try reflexivity; lia.
Qed.

Lemma replace_node_values_step {B} (k : unit -> M B) (g l : Graph) n node repl :
  g !! n = Some node ->
  (length (output_partial_shapes node) <= length repl)%nat ->
  bind (replace_node_values n repl) k (g ++ l) = k tt (rewire n repl (g ++ l)).
Proof. intros Hn Hle. apply bind_run. by apply replace_node_values_run with node. Qed.

Lemma maxpool_v8_run tc (g : Graph) n node pool in0 rest shape shape1 :
  g !! n = Some node ->
  node_op node = OpArmMaxPoolV8 pool ->
  input_values node = in0 :: rest ->
  output_partial_shapes node = [shape; shape1] ->
  length shape = 4%nat \/ length shape = 5%nat ->
  tc g n = false ->
  untouched n node ->
  axis_passes_guard (node_op node) (length shape) ->
  exists shape' sA,
    permute (input_order (length shape)) shape = Some shape' /\
    ConvertArmMaxPoolV8Layout_callback tc n g
    = Ok (true, rewire n [mkOutput (length g + 4) 0; mkOutput (length g + 6) 0] g
                ++ pool_v8_subgraph (length g) node
                     (OpArmMaxPoolV8 (relayout_ArmMaxPoolV8 pool shape'))
                     in0 shape shape' sA).
Proof.
  intros Hn Hop Hin Hout Hrank Htc Hacyc Haxis.
  assert (Hs : output_partial_shapes node !! 0%nat = Some shape) by (by rewrite Hout).
  assert (Hi0 : input_values node !! 0%nat = Some in0) by (by rewrite Hin).
  assert (Ho2 : (length (output_partial_shapes node) <= 2)%nat) by (by rewrite Hout).
  pose proof (rank_check_passes _ Hrank) as Hrk.
  pose proof (lookup_lt_Some _ _ _ Hn) as Hlt.
  rewrite Hop in Haxis. cbn [axis_passes_guard] in Haxis.
  pose proof (axis_guard_false _ _ Hrank Haxis) as Hguard.
  unfold untouched in Hacyc. rewrite Hin in Hacyc.
  apply Forall_cons in Hacyc as [Hn0 Hacyc].
  destruct (permute_input_total shape _ eq_refl Hrank) as (shape' & Hperm).
  pose proof (permute_back _ _ _ eq_refl Hrank Hperm) as Hback.
  exists shape'. eexists. split; [exact Hperm|].
  unfold ConvertArmMaxPoolV8Layout_callback.
  unfold bind at 1, get_graph. cbv beta iota. rewrite Htc.
  unfold as_type_ptr. rewrite Hn, Hop. cbn [as_ArmMaxPoolV8].
  step0 (get_output_partial_shape_run g [] _ _ _ _ Hn Hs).
  rewrite Hrk. cbv zeta. rewrite Hguard.
  step0 (input_value_run g [] _ _ _ _ Hn Hi0).
  step0 (transpose_on_input_run in0 _ g [] Hrank).
  step (transpose_output_shape_run g _ _ _ _ _ _ Hn Hs eq_refl Hrank Hperm).
  step (make_shared_run _ _ g _).
  step (transpose_on_output_run _ _ g _ Hrank).
  erewrite (infer_new_transpose g _ 2 0 3 _ _ shape shape');
    [|reflexivity..|exact Hback].
  step (get_friendly_name_run g _ _ _ Hn).
  step (set_friendly_name_run g _ 4 _).
  cbn [alter list_alter].
  step (transpose_on_output_run _ _ g _ Hrank).
  erewrite (infer_new_transpose g _ 2 1 5 _ _ shape shape');
    [|reflexivity..|exact Hback].
  step (get_friendly_name_run g _ _ _ Hn).
  step (set_friendly_name_run g _ 6 _).
  cbn [alter list_alter].
  step (copy_runtime_info_run g _ n node [2; 1; 4; 6]%nat Hn).
  cbn [foldl alter list_alter].
  erewrite (replace_node_values_step _ g _ n node _ Hn); [|exact Ho2].
  rewrite rewire_app by untouched_new. reflexivity.
Qed.

(** ** Reading the rewritten graph *)

Lemma is_transpose_new n repl (g l : Graph) t c cid tn data order :
  l !! t = Some tn ->
  node_op tn = OpTranspose ->
  input_values tn = [data; mkOutput cid 0] ->
  cid = (length g + c)%nat ->
  l !! c = Some (constant_node order) ->
  is_transpose (rewire n repl g ++ l) (length g + t) data order.
Proof.
  intros Ht Hop Hin -> Hc. exists tn, (length g + c)%nat, (constant_node order).
  rewrite !lookup_rewired_new. by repeat split.
Qed.

Lemma replaces_outputs_rewire n (g l : Graph) outs :
  replaces_outputs g (rewire n ((fun t => mkOutput t 0) <$> outs) g ++ l) n outs.
Proof. intros m old Hm. by apply lookup_rewired_old. Qed.

Lemma root_type_node (pass : LayoutPass) (node : Node) :
  root_type pass (node_op node) = true ->
  match pass with
  | ConvertArmConvolutionLayout => exists c, node_op node = OpArmConvolution c
  | ConvertArmMaxPoolV1Layout => exists p, node_op node = OpArmMaxPoolV1 p
  | ConvertArmMaxPoolV8Layout => exists p, node_op node = OpArmMaxPoolV8 p
  | ConvertArmAvgPoolLayout => exists p, node_op node = OpArmAvgPool p
  end.
Proof. destruct pass, (node_op node); simpl; try discriminate; eauto. Qed.

Lemma lookup_0_cons {A} (l : list A) x : l !! 0%nat = Some x -> exists r, l = x :: r.
Proof. destruct l; [done|]. intros [= ->]. eauto. Qed.

Lemma length_1 {A} (l : list A) x :
  length l = 1%nat -> l !! 0%nat = Some x -> l = [x].
Proof. destruct l as [|y [|z l]]; try done. by intros _ [= ->]. Qed.

Lemma length_2 {A} (l : list A) x :
  length l = 2%nat -> l !! 0%nat = Some x -> exists y, l = [x; y].
Proof. destruct l as [|y [|z [|w l]]]; try done. intros _ [= ->]. eauto. Qed.

Ltac new_transpose c :=
  eapply (is_transpose_new _ _ _ _ _ c); [reflexivity..|lia|reflexivity].

Lemma conv_rewrite tc g n node in0 shape :
  g !! n = Some node ->
  root_type ConvertArmConvolutionLayout (node_op node) = true ->
  input_values node !! 0%nat = Some in0 ->
  (2 <= length (input_values node))%nat ->
  length (output_partial_shapes node) = 1%nat ->
  output_partial_shapes node !! 0%nat = Some shape ->
  length shape = 4%nat \/ length shape = 5%nat ->
  tc g n = false ->
  untouched n node ->
  exists g',
    ConvertArmConvolutionLayout_callback tc n g = Ok (true, g')
    /\ layout_rewrite ConvertArmConvolutionLayout g n node in0 shape g'.
Proof.
  intros Hn Hroot Hi0 Hins Houts Hs Hrank Htc Hacyc.
  apply root_type_node in Hroot as [conv Hop].
  destruct (input_values node) as [|i0 [|in1 rest]] eqn:Hin; simpl in Hins; try lia.
  injection Hi0 as ->.
  pose proof (length_1 _ _ Houts Hs) as Hout.
  destruct (conv_run tc g n node conv in0 in1 rest shape Hn Hop Hin Hout Hrank Htc Hacyc)
    as (shape' & sA & sW & Hperm & Hrun).
  eexists. split; [exact Hrun|].
  exists (length g + 1)%nat, (length g + 4)%nat. eexists. exists [(length g + 6)%nat].
  split; [new_transpose 0%nat|].
  split; [by rewrite lookup_rewired_new|].
  split; [reflexivity|].
  split; [by rewrite (transpose_output_shape_of_permute _ _ eq_refl Hrank)|].
  split; [reflexivity|].
  split.
  { intros _. exists in1, (length g + 3)%nat. split; [by rewrite Hin|].
    split; [new_transpose 2%nat|reflexivity]. }
  split; [reflexivity|].
  split; [|apply (replaces_outputs_rewire n g _ [(length g + 6)%nat])].
  intros [|j] t Ht; [|done]. injection Ht as <-.
  eexists. split; [by rewrite lookup_rewired_new|].
  split; [new_transpose 5%nat|]. by split.
Qed.

Lemma maxpool_v1_rewrite tc g n node in0 shape :
  g !! n = Some node ->
  root_type ConvertArmMaxPoolV1Layout (node_op node) = true ->
  input_values node !! 0%nat = Some in0 ->
  length (output_partial_shapes node) = 1%nat ->
  output_partial_shapes node !! 0%nat = Some shape ->
  length shape = 4%nat \/ length shape = 5%nat ->
  tc g n = false ->
  untouched n node ->
  exists g',
    ConvertArmMaxPoolV1Layout_callback tc n g = Ok (true, g')
    /\ layout_rewrite ConvertArmMaxPoolV1Layout g n node in0 shape g'.
Proof.
  intros Hn Hroot Hi0 Houts Hs Hrank Htc Hacyc.
  apply root_type_node in Hroot as [pool Hop].
  destruct (lookup_0_cons _ _ Hi0) as [rest Hin].
  pose proof (length_1 _ _ Houts Hs) as Hout.
  destruct (maxpool_v1_run tc g n node pool in0 rest shape Hn Hop Hin Hout Hrank Htc Hacyc)
    as (shape' & sA & Hperm & Hrun).
  eexists. split; [exact Hrun|].
  exists (length g + 1)%nat, (length g + 2)%nat. eexists. exists [(length g + 4)%nat].
  split; [new_transpose 0%nat|].
  split; [by rewrite lookup_rewired_new|].
  split; [reflexivity|].
  split; [by rewrite (transpose_output_shape_of_permute _ _ eq_refl Hrank)|].
  split; [reflexivity|].
  split; [discriminate|].
  split; [reflexivity|].
  split; [|apply (replaces_outputs_rewire n g _ [(length g + 4)%nat])].
  intros [|j] t Ht; [|done]. injection Ht as <-.
  eexists. split; [by rewrite lookup_rewired_new|].
  split; [new_transpose 3%nat|]. by split.
Qed.

Lemma avgpool_rewrite tc g n node in0 shape :
  g !! n = Some node ->
  root_type ConvertArmAvgPoolLayout (node_op node) = true ->
  input_values node !! 0%nat = Some in0 ->
  length (output_partial_shapes node) = 1%nat ->
  output_partial_shapes node !! 0%nat = Some shape ->
  length shape = 4%nat \/ length shape = 5%nat ->
  tc g n = false ->
  untouched n node ->
  exists g',
    ConvertArmAvgPoolLayout_callback tc n g = Ok (true, g')
    /\ layout_rewrite ConvertArmAvgPoolLayout g n node in0 shape g'.
Proof.
  intros Hn Hroot Hi0 Houts Hs Hrank Htc Hacyc.
  apply root_type_node in Hroot as [pool Hop].
  destruct (lookup_0_cons _ _ Hi0) as [rest Hin].
  pose proof (length_1 _ _ Houts Hs) as Hout.
  destruct (avgpool_run tc g n node pool in0 rest shape Hn Hop Hin Hout Hrank Htc Hacyc)
    as (shape' & sA & Hperm & Hrun).
  eexists. split; [exact Hrun|].
  exists (length g + 1)%nat, (length g + 2)%nat. eexists. exists [(length g + 4)%nat].
  split; [new_transpose 0%nat|].
  split; [by rewrite lookup_rewired_new|].
  split; [reflexivity|].
  split; [by rewrite (transpose_output_shape_of_permute _ _ eq_refl Hrank)|].
  split; [reflexivity|].
  split; [discriminate|].
  split; [reflexivity|].
  split; [|apply (replaces_outputs_rewire n g _ [(length g + 4)%nat])].
  intros [|j] t Ht; [|done]. injection Ht as <-.
  eexists. split; [by rewrite lookup_rewired_new|].
  split; [new_transpose 3%nat|]. by split.
Qed.

Lemma maxpool_v8_rewrite tc g n node in0 shape :
  g !! n = Some node ->
  root_type ConvertArmMaxPoolV8Layout (node_op node) = true ->
  input_values node !! 0%nat = Some in0 ->
  length (output_partial_shapes node) = 2%nat ->
  output_partial_shapes node !! 0%nat = Some shape ->
  length shape = 4%nat \/ length shape = 5%nat ->
  tc g n = false ->
  untouched n node ->
  axis_passes_guard (node_op node) (length shape) ->
  exists g',
    ConvertArmMaxPoolV8Layout_callback tc n g = Ok (true, g')
    /\ layout_rewrite ConvertArmMaxPoolV8Layout g n node in0 shape g'.
Proof.
  intros Hn Hroot Hi0 Houts Hs Hrank Htc Hacyc Haxis.
  apply root_type_node in Hroot as [pool Hop].
  destruct (lookup_0_cons _ _ Hi0) as [rest Hin].
  destruct (length_2 _ _ Houts Hs) as [shape1 Hout].
  destruct (maxpool_v8_run tc g n node pool in0 rest shape shape1
              Hn Hop Hin Hout Hrank Htc Hacyc Haxis)
    as (shape' & sA & Hperm & Hrun).
  eexists. split; [exact Hrun|].
  exists (length g + 1)%nat, (length g + 2)%nat. eexists.
  exists [(length g + 4)%nat; (length g + 6)%nat].
  split; [new_transpose 0%nat|].
  split; [by rewrite lookup_rewired_new|].
  split; [reflexivity|].
  split; [by rewrite (transpose_output_shape_of_permute _ _ eq_refl Hrank)|].
  split; [reflexivity|].
  split; [discriminate|].
  split; [reflexivity|].
  split; [|apply (replaces_outputs_rewire n g _ [(length g + 4)%nat; (length g + 6)%nat])].
  intros [|[|j]] t Ht; [| |done]; injection Ht as <-.
  - eexists. split; [by rewrite lookup_rewired_new|].
    split; [new_transpose 3%nat|]. by split.
  - eexists. split; [by rewrite lookup_rewired_new|].
    split; [new_transpose 5%nat|]. by split.
Qed.

(** ** The permutations (C1) and the permuted output shape (C3) *)

Lemma output_shape_of_old (g l : Graph) o shape :
  output_shape_of g o = Some shape -> output_shape_of (g ++ l) o = Some shape.
Proof.
  unfold output_shape_of. destruct (g !! get_node o) as [node|] eqn:Hn; [|done].
  by rewrite (lookup_old _ _ _ _ Hn).
Qed.

(** C1: the permutation put on the output side is the inverse of the one put
    on the input side.  Composing [nchw_to_nhwc] with [nhwc_to_nchw], in
    either order, is the identity on 4 elements and composing
    [ncdhw_to_ndhwc] with [ndhwc_to_ncdhw], in either order, is the identity
    on 5 elements; hence, for data of rank 4 or 5, the transpose built by
    [transpose_on_output] on top of the one built by [transpose_on_input] has
    the shape of the data again, the intermediate shape being the one
    [transpose_output_shape] computes. *)
Theorem output_transpose_inverts_input_transpose
    (g : Graph) (data : Output) (shape : PartialShape) (rank : nat) :
  output_shape_of g data = Some shape ->
  length shape = rank ->
  rank = 4%nat \/ rank = 5%nat ->
  compose_order nchw_to_nhwc nhwc_to_nchw = Some (identity_order 4)
  /\ compose_order nhwc_to_nchw nchw_to_nhwc = Some (identity_order 4)
  /\ compose_order ncdhw_to_ndhwc ndhwc_to_ncdhw = Some (identity_order 5)
  /\ compose_order ndhwc_to_ncdhw ncdhw_to_ndhwc = Some (identity_order 5)
  /\ exists t1 g1 t2 g2 shape',
       transpose_on_input data rank g = Ok (t1, g1)
       /\ output_shape_of g1 (mkOutput t1 0) = Some shape'
       /\ transpose_output_shape_of shape rank = Some shape'
       /\ transpose_on_output (mkOutput t1 0) rank g1 = Ok (t2, g2)
       /\ output_shape_of g2 (mkOutput t2 0) = Some shape.
Proof.
  intros Hdata Hlen Hrank. do 4 (split; [reflexivity|]).
  destruct (permute_input_total shape rank Hlen Hrank) as (shape' & Hperm).
  pose proof (permute_back _ _ _ Hlen Hrank Hperm) as Hback.
  pose proof (transpose_on_input_run data rank g [] Hrank) as E1.
  cbn [app length] in E1. rewrite ?app_nil_r, ?Nat.add_0_r in E1.
  assert (Hs1 : infer_shapes (g ++ [constant_node (input_order rank)]) OpTranspose
                  [data; mkOutput (length g) 0] = [shape']).
  { apply infer_transpose with (shape := shape) (perm := input_order rank); [| |done].
    - by apply output_shape_of_old.
    - unfold constant_values. cbn [get_node].
      rewrite <- (Nat.add_0_r (length g)). by rewrite lookup_new. }
  rewrite Hs1 in E1.
  pose proof (transpose_on_output_run (mkOutput (length g + 1) 0) rank g
                [constant_node (input_order rank);
                 transpose_node [shape'] data (length g)] Hrank) as E2.
  cbn [app length] in E2.
  erewrite (infer_new_transpose g _ 1 0 2 _ _ shape shape') in E2;
    [|reflexivity..|exact Hback].
  do 5 eexists. split; [exact E1|].
  split; [unfold output_shape_of; cbn [get_node get_index]; by rewrite lookup_new|].
  split; [by rewrite (transpose_output_shape_of_permute _ _ Hlen Hrank)|].
  split; [exact E2|].
  unfold output_shape_of. cbn [get_node get_index]. by rewrite lookup_new.
Qed.

Lemma output_transpose_inverts_input_transpose_witness :
  output_shape_of example_graph (mkOutput 0 0) = Some (dims [1; 3; 32; 32])
  /\ length (dims [1; 3; 32; 32]) = 4%nat
  /\ (4 = 4 \/ 4 = 5)%nat
  /\ exists t1 g1 t2 g2 shape',
       transpose_on_input (mkOutput 0 0) 4 example_graph = Ok (t1, g1)
       /\ output_shape_of g1 (mkOutput t1 0) = Some shape'
       /\ transpose_output_shape_of (dims [1; 3; 32; 32]) 4 = Some shape'
       /\ transpose_on_output (mkOutput t1 0) 4 g1 = Ok (t2, g2)
       /\ output_shape_of g2 (mkOutput t2 0) = Some (dims [1; 3; 32; 32]).
Proof.
  split; [reflexivity|]. split; [reflexivity|]. split; [by left|].
  apply (output_transpose_inverts_input_transpose
           example_graph (mkOutput 0 0) (dims [1; 3; 32; 32]) 4);
    [reflexivity | reflexivity | by left].
Defined.

(** C3: for a node whose output 0 has rank 4 or 5, [transpose_output_shape]
    returns a shape of the same rank whose dimension [i] is the dimension
    [perm[i]] of the node's output shape, [perm] being [nchw_to_nhwc] for rank
    4 and [ncdhw_to_ndhwc] for rank 5; the result is a permutation of the
    output shape, and the graph is not changed. *)
Theorem transpose_output_shape_permutes
    (g : Graph) (n : NodeId) (node : Node) (shape : PartialShape) (rank : nat) :
  g !! n = Some node ->
  output_partial_shapes node !! 0%nat = Some shape ->
  length shape = rank ->
  rank = 4%nat \/ rank = 5%nat ->
  exists new_output_shape,
    transpose_output_shape n rank g = Ok (new_output_shape, g)
    /\ length new_output_shape = rank
    /\ (forall i : nat, (i < rank)%nat ->
          exists p d,
            (if (rank =? 4)%nat then nchw_to_nhwc else ncdhw_to_ndhwc) !! i = Some p
            /\ shape_at shape p = Some d
            /\ new_output_shape !! i = Some d)
    /\ new_output_shape ≡ₚ shape.
Proof.
  intros Hn Hs Hlen Hrank.
  unfold transpose_output_shape.
  pose proof (get_output_partial_shape_run g [] n node 0 shape Hn Hs) as E.
  rewrite app_nil_r in E. rewrite (bind_run _ _ _ _ _ E). clear E.
  destruct Hrank as [-> | ->].
  - destruct shape as [|a [|b [|c [|d [|e shape]]]]]; try discriminate.
    exists [a; c; d; b]. repeat split.
    + intros i Hi. destruct i as [|[|[|[|i]]]]; [| | | |lia]; simpl; eauto.
    + apply Permutation_cons; [done|]. symmetry.
      apply Permutation_cons_append with (l := [c; d]).
  - destruct shape as [|a [|b [|c [|d [|e [|f shape]]]]]]; try discriminate.
    exists [a; c; d; e; b]. repeat split.
    + intros i Hi. destruct i as [|[|[|[|[|i]]]]]; [| | | | |lia]; simpl; eauto.
    + apply Permutation_cons; [done|]. symmetry.
      apply Permutation_cons_append with (l := [c; d; e]).
Qed.

Lemma transpose_output_shape_permutes_witness :
  example_graph !! 3%nat
  = Some (mkNode (OpArmConvolution example_conv)
                 [mkOutput 0 0; mkOutput 1 0; mkOutput 2 0]
                 [dims [1; 8; 30; 30]] "conv" [("origin", "conv")]%string)
  /\ length (dims [1; 8; 30; 30]) = 4%nat
  /\ exists new_output_shape,
       transpose_output_shape 3 4 example_graph
       = Ok (new_output_shape, example_graph)
       /\ length new_output_shape = 4%nat
       /\ (forall i : nat, (i < 4)%nat ->
             exists p d,
               (if (4 =? 4)%nat then nchw_to_nhwc else ncdhw_to_ndhwc) !! i = Some p
               /\ shape_at (dims [1; 8; 30; 30]) p = Some d
               /\ new_output_shape !! i = Some d)
       /\ new_output_shape ≡ₚ dims [1; 8; 30; 30].
Proof.
  split; [reflexivity|]. split; [reflexivity|].
  apply (transpose_output_shape_permutes example_graph 3
           (mkNode (OpArmConvolution example_conv)
                   [mkOutput 0 0; mkOutput 1 0; mkOutput 2 0]
                   [dims [1; 8; 30; 30]] "conv" [("origin", "conv")]%string)
           (dims [1; 8; 30; 30]) 4);
    [reflexivity | reflexivity | reflexivity | by left].
Defined.

(** ** The subgraph each pass builds (C2) *)

(** C2, amended: for a matched convolution or pooling node whose output rank
    is 4 or 5, which [transformation_callback] does not exclude and, for
    MaxPool-v8, whose axis passes the guard of the pass (it is at most 1 and
    not one of [-rank .. -1]), the callback returns [true] and leaves the graph
    with the subgraph in place of the node: a Transpose to channel-last on the
    activations (and on the weights for a convolution), a new operator of the
    same type with the permuted output shape, and a Transpose back to
    channel-first on each output, named after the original node (suffixed
    ".0" and ".1" for MaxPool-v8), to which every consumer of the original
    node is reconnected. *)
Theorem layout_pass_replaces_node
    (tc : Graph -> NodeId -> bool) (pass : LayoutPass) (g : Graph) (n : NodeId)
    (node : Node) (in0 : Output) (shape : PartialShape) :
  g !! n = Some node ->
  root_type pass (node_op node) = true ->
  input_values node !! 0%nat = Some in0 ->
  (expected_inputs pass <= length (input_values node))%nat ->
  length (output_partial_shapes node) = expected_outputs pass ->
  output_partial_shapes node !! 0%nat = Some shape ->
  length shape = 4%nat \/ length shape = 5%nat ->
  tc g n = false ->
  untouched n node ->
  axis_passes_guard (node_op node) (length shape) ->
  exists g',
    callback tc pass n g = Ok (true, g')
    /\ layout_rewrite pass g n node in0 shape g'.
Proof.
  intros Hn Hroot Hi0 Hins Houts Hs Hrank Htc Hacyc Haxis.
  destruct pass; cbn [callback expected_inputs expected_outputs] in *.
  - by apply conv_rewrite.
  - by apply maxpool_v1_rewrite.
  - by apply maxpool_v8_rewrite.
  - by apply avgpool_rewrite.
Qed.

Lemma layout_pass_replaces_node_witness :
  example_graph !! 6%nat = Some example_pool8_node
  /\ root_type ConvertArmMaxPoolV8Layout (node_op example_pool8_node) = true
  /\ never_excluded example_graph 6%nat = false
  /\ exists g',
       callback never_excluded ConvertArmMaxPoolV8Layout 6 example_graph
       = Ok (true, g')
       /\ layout_rewrite ConvertArmMaxPoolV8Layout example_graph 6
                         example_pool8_node (mkOutput 5 0) (dims [1; 8; 3; 3]) g'.
Proof.
  split; [reflexivity|]. split; [reflexivity|]. split; [reflexivity|].
  apply (layout_pass_replaces_node never_excluded ConvertArmMaxPoolV8Layout
           example_graph 6 example_pool8_node (mkOutput 5 0) (dims [1; 8; 3; 3]));
    [reflexivity | reflexivity | reflexivity | simpl; lia | reflexivity
    | reflexivity | by left | reflexivity | | simpl; lia].
  repeat constructor. simpl. lia.
Defined.

(** C2 as stated fails on a MaxPool-v8 with axis 2: the node is matched, has
    output rank 4 and is not excluded, and the callback returns [false] and
    leaves the graph as it was. *)
Lemma maxpool_v8_axis_2_is_not_replaced :
  is_root ConvertArmMaxPoolV8Layout example_graph 7 = true
  /\ (node ← example_graph !! 7%nat;
      length <$> output_partial_shapes node !! 0%nat) = Some 4%nat
  /\ never_excluded example_graph 7%nat = false
  /\ callback never_excluded ConvertArmMaxPoolV8Layout 7 example_graph
     = Ok (false, example_graph)
  /\ ~ (exists g', callback never_excluded ConvertArmMaxPoolV8Layout 7 example_graph
                   = Ok (true, g')).
Proof.
  split; [reflexivity|]. split; [reflexivity|]. split; [reflexivity|].
  assert (H : callback never_excluded ConvertArmMaxPoolV8Layout 7 example_graph
              = Ok (false, example_graph)) by (vm_compute; reflexivity).
  split; [exact H|]. intros [g' Hg']. rewrite H in Hg'. discriminate.
Qed.

(** ** Attributes of the replacement operator (C4) *)

Lemma get_attribute_relayout op shape' a :
  get_attribute (relayout op shape') a = get_attribute op a.
Proof. by destruct op, a. Qed.

Lemma root_type_relayout pass op shape' :
  root_type pass (relayout op shape') = root_type pass op.
Proof. by destruct pass, op. Qed.

Lemma copied_attributes_complete pass op a :
  root_type pass op = true ->
  a ∈ copied_attributes pass <-> is_Some (get_attribute op a).
Proof.
  intros Hroot. destruct pass, op; try discriminate; destruct a; simpl;
    (split; intros H;
     first [ by eexists
           | by repeat constructor
           | by destruct H as [? [=]]
           | exfalso;
             repeat (apply elem_of_cons in H as [H|H]; [discriminate H|]);
             by apply elem_of_nil in H ]).
Qed.

(** The operator a callback builds is the original with another declared
    output shape. *)
Lemma callback_new_operator tc pass g n node in0 shape :
  g !! n = Some node ->
  root_type pass (node_op node) = true ->
  input_values node !! 0%nat = Some in0 ->
  (expected_inputs pass <= length (input_values node))%nat ->
  length (output_partial_shapes node) = expected_outputs pass ->
  output_partial_shapes node !! 0%nat = Some shape ->
  length shape = 4%nat \/ length shape = 5%nat ->
  tc g n = false ->
  untouched n node ->
  axis_passes_guard (node_op node) (length shape) ->
  exists g' new_op nop shape',
    callback tc pass n g = Ok (true, g')
    /\ (length g <= new_op)%nat
    /\ g' !! new_op = Some nop
    /\ transpose_output_shape_of shape (length shape) = Some shape'
    /\ node_op nop = relayout (node_op node) shape'.
Proof.
  intros Hn Hroot Hi0 Hins Houts Hs Hrank Htc Hacyc Haxis.
  pose proof (transpose_output_shape_of_permute shape _ eq_refl Hrank) as Hto.
  destruct pass; cbn [callback expected_inputs expected_outputs] in *;
    apply root_type_node in Hroot as [x Hop].
  - destruct (input_values node) as [|i0 [|in1 rest]] eqn:Hin; simpl in Hins; try lia.
    injection Hi0 as ->.
    pose proof (length_1 _ _ Houts Hs) as Hout.
    destruct (conv_run tc g n node x in0 in1 rest shape Hn Hop Hin Hout Hrank Htc Hacyc)
      as (shape' & sA & sW & Hperm & Hrun).
    eexists. exists (length g + 4)%nat. eexists. exists shape'.
    split; [exact Hrun|]. split; [lia|].
    split; [by rewrite lookup_rewired_new|].
    split; [by rewrite Hto|]. by rewrite Hop.
  - destruct (lookup_0_cons _ _ Hi0) as [rest Hin].
    pose proof (length_1 _ _ Houts Hs) as Hout.
    destruct (maxpool_v1_run tc g n node x in0 rest shape Hn Hop Hin Hout Hrank Htc Hacyc)
      as (shape' & sA & Hperm & Hrun).
    eexists. exists (length g + 2)%nat. eexists. exists shape'.
    split; [exact Hrun|]. split; [lia|].
    split; [by rewrite lookup_rewired_new|].
    split; [by rewrite Hto|]. by rewrite Hop.
  - destruct (lookup_0_cons _ _ Hi0) as [rest Hin].
    destruct (length_2 _ _ Houts Hs) as [shape1 Hout].
    destruct (maxpool_v8_run tc g n node x in0 rest shape shape1
                Hn Hop Hin Hout Hrank Htc Hacyc Haxis)
      as (shape' & sA & Hperm & Hrun).
    eexists. exists (length g + 2)%nat. eexists. exists shape'.
    split; [exact Hrun|]. split; [lia|].
    split; [by rewrite lookup_rewired_new|].
    split; [by rewrite Hto|]. by rewrite Hop.
  - destruct (lookup_0_cons _ _ Hi0) as [rest Hin].
    pose proof (length_1 _ _ Houts Hs) as Hout.
    destruct (avgpool_run tc g n node x in0 rest shape Hn Hop Hin Hout Hrank Htc Hacyc)
      as (shape' & sA & Hperm & Hrun).
    eexists. exists (length g + 2)%nat. eexists. exists shape'.
    split; [exact Hrun|]. split; [lia|].
    split; [by rewrite lookup_rewired_new|].
    split; [by rewrite Hto|]. by rewrite Hop.
Qed.

(** C4, amended: on a node it rewrites, each pass copies every attribute of
    the original operator unchanged onto the replacement: strides, pads_begin,
    pads_end and auto_pad for all four passes; kernel for the three pooling
    passes; dilations for convolution and MaxPool-v8; rounding type for the
    pooling passes; exclude_pad for AvgPool; index element type and axis for
    MaxPool-v8.  The operator has no other attribute, and the replacement is
    the original operator with another declared output shape. *)
Theorem layout_pass_copies_attributes
    (tc : Graph -> NodeId -> bool) (pass : LayoutPass) (g : Graph) (n : NodeId)
    (node : Node) (in0 : Output) (shape : PartialShape) :
  g !! n = Some node ->
  root_type pass (node_op node) = true ->
  input_values node !! 0%nat = Some in0 ->
  (expected_inputs pass <= length (input_values node))%nat ->
  length (output_partial_shapes node) = expected_outputs pass ->
  output_partial_shapes node !! 0%nat = Some shape ->
  length shape = 4%nat \/ length shape = 5%nat ->
  tc g n = false ->
  untouched n node ->
  axis_passes_guard (node_op node) (length shape) ->
  (forall a, a ∈ copied_attributes pass -> copies_attribute tc pass a g n)
  /\ (forall a, a ∉ copied_attributes pass -> get_attribute (node_op node) a = None)
  /\ exists g' new_op nop shape',
       callback tc pass n g = Ok (true, g')
       /\ (length g <= new_op)%nat
       /\ g' !! new_op = Some nop
       /\ transpose_output_shape_of shape (length shape) = Some shape'
       /\ node_op nop = relayout (node_op node) shape'.
Proof.
  intros Hn Hroot Hi0 Hins Houts Hs Hrank Htc Hacyc Haxis.
  pose proof (callback_new_operator tc pass g n node in0 shape
                Hn Hroot Hi0 Hins Houts Hs Hrank Htc Hacyc Haxis) as Hnew.
  split; [|split; [|exact Hnew]].
  - intros a Ha.
    destruct Hnew as (g' & new_op & nop & shape' & Hrun & Hfresh & Hlook & _ & Hop).
    apply (copied_attributes_complete pass _ a Hroot) in Ha as [v Hv].
    exists node, g', new_op, nop, v. repeat split; try done.
    + by rewrite Hop, root_type_relayout.
    + by rewrite Hop, get_attribute_relayout.
  - intros a Ha. destruct (get_attribute (node_op node) a) eqn:E; [|done].
    exfalso. apply Ha. apply (copied_attributes_complete pass _ a Hroot). by eexists.
Qed.

Lemma layout_pass_copies_attributes_witness :
  example_graph !! 3%nat = Some example_conv_node
  /\ root_type ConvertArmConvolutionLayout (node_op example_conv_node) = true
  /\ never_excluded example_graph 3%nat = false
  /\ (forall a, a ∈ copied_attributes ConvertArmConvolutionLayout ->
        copies_attribute never_excluded ConvertArmConvolutionLayout a example_graph 3)
  /\ (forall a, a ∉ copied_attributes ConvertArmConvolutionLayout ->
        get_attribute (node_op example_conv_node) a = None)
  /\ exists g' new_op nop shape',
       callback never_excluded ConvertArmConvolutionLayout 3 example_graph
       = Ok (true, g')
       /\ (length example_graph <= new_op)%nat
       /\ g' !! new_op = Some nop
       /\ transpose_output_shape_of (dims [1; 8; 30; 30])
                                    (length (dims [1; 8; 30; 30])) = Some shape'
       /\ node_op nop = relayout (node_op example_conv_node) shape'.
Proof.
  split; [reflexivity|]. split; [reflexivity|]. split; [reflexivity|].
  apply (layout_pass_copies_attributes never_excluded ConvertArmConvolutionLayout
           example_graph 3 example_conv_node (mkOutput 0 0) (dims [1; 8; 30; 30]));
    [reflexivity | reflexivity | reflexivity | simpl; lia | reflexivity
    | reflexivity | by left | reflexivity | | exact I].
  repeat constructor; simpl; lia.
Defined.

(** C4 as stated lists kernel among the attributes copied by all four passes.
    The convolution pass rewrites the convolution of the example, and neither
    that convolution nor its replacement has a kernel attribute: the callback
    hands strides, pads_begin, pads_end, dilations and auto_pad to the
    constructor. *)
Lemma convolution_pass_copies_no_kernel :
  (exists g', callback never_excluded ConvertArmConvolutionLayout 3 example_graph
              = Ok (true, g'))
  /\ copied_attributes ConvertArmConvolutionLayout
     = [strides; pads_begin; pads_end; dilations; auto_pad]
  /\ ~ copies_attribute never_excluded ConvertArmConvolutionLayout kernel
                        example_graph 3.
Proof.
  split; [eexists; vm_compute; reflexivity|]. split; [reflexivity|].
  intros (node & g' & new_op & nop & v & Hn & _ & _ & _ & _ & Hv & _).
  injection Hn as <-. discriminate Hv.
Qed.

(** ** The bias input of a convolution (C7) *)

(** C7: when the matched convolution has more than two inputs, the
    replacement convolution reads its third input from the very output that
    fed the original one, while its first two inputs come from fresh
    channel-last transposes of the activations and of the weights; no other
    transpose is added except the one on the output of the replacement. *)
Theorem convolution_bias_is_connected_directly
    (tc : Graph -> NodeId -> bool) (g : Graph) (n : NodeId) (node : Node)
    (conv : ArmConvolution.t) (in0 in1 in2 : Output) (rest : list Output)
    (shape : PartialShape) :
  g !! n = Some node ->
  node_op node = OpArmConvolution conv ->
  input_values node = in0 :: in1 :: in2 :: rest ->
  output_partial_shapes node = [shape] ->
  length shape = 4%nat \/ length shape = 5%nat ->
  tc g n = false ->
  untouched n node ->
  exists g',
    ConvertArmConvolutionLayout_callback tc n g = Ok (true, g')
    /\ bias_connected_directly g g' in0 in1 in2 (length shape).
Proof.
  intros Hn Hop Hin Hout Hrank Htc Hacyc.
  destruct (conv_run tc g n node conv in0 in1 (in2 :: rest) shape
              Hn Hop Hin Hout Hrank Htc Hacyc)
    as (shape' & sA & sW & Hperm & Hrun).
  eexists. split; [exact Hrun|].
  exists (length g + 4)%nat. eexists. eexists.
  exists (length g + 1)%nat, (length g + 3)%nat.
  split; [by rewrite lookup_rewired_new|].
  split; [reflexivity|].
  split; [reflexivity|].
  split; [new_transpose 0%nat|].
  split; [new_transpose 2%nat|].
  intros m tn Hm Hlook Htr.
  replace m with (length g + (m - length g))%nat in * by lia.
  rewrite lookup_rewired_new in Hlook.
  destruct (m - length g)%nat as [|[|[|[|[|[|[|k]]]]]]];
    cbn in Hlook; try discriminate; injection Hlook as <-; try discriminate Htr.
  - by left.
  - right. left. lia.
  - right. right. reflexivity.
Qed.

Lemma convolution_bias_is_connected_directly_witness :
  example_graph !! 3%nat = Some example_conv_node
  /\ input_values example_conv_node = [mkOutput 0 0; mkOutput 1 0; mkOutput 2 0]
  /\ never_excluded example_graph 3%nat = false
  /\ exists g',
       ConvertArmConvolutionLayout_callback never_excluded 3 example_graph
       = Ok (true, g')
       /\ bias_connected_directly example_graph g'
            (mkOutput 0 0) (mkOutput 1 0) (mkOutput 2 0) 4.
Proof.
  split; [reflexivity|]. split; [reflexivity|]. split; [reflexivity|].
  apply (convolution_bias_is_connected_directly never_excluded example_graph 3
           example_conv_node example_conv (mkOutput 0 0) (mkOutput 1 0)
           (mkOutput 2 0) [] (dims [1; 8; 30; 30]));
    [reflexivity | reflexivity | reflexivity | reflexivity | by left
    | reflexivity | ].
  repeat constructor; simpl; lia.
Defined.

(** ** Declining without a trace (C5) *)

Lemma callback_excluded tc pass g n :
  tc g n = true -> callback tc pass n g = Ok (false, g).
Proof.
  intros H. destruct pass; cbn [callback];
    [unfold ConvertArmConvolutionLayout_callback
    |unfold ConvertArmMaxPoolV1Layout_callback
    |unfold ConvertArmMaxPoolV8Layout_callback
    |unfold ConvertArmAvgPoolLayout_callback];
    unfold bind at 1, get_graph; cbv beta iota; by rewrite H.
Qed.

Lemma callback_not_root tc pass g n :
  is_root pass g n = false -> callback tc pass n g = Ok (false, g).
Proof.
  intros H. destruct (tc g n) eqn:Htc; [by apply callback_excluded|].
  unfold is_root in H.
  destruct pass; cbn [callback];
    [unfold ConvertArmConvolutionLayout_callback
    |unfold ConvertArmMaxPoolV1Layout_callback
    |unfold ConvertArmMaxPoolV8Layout_callback
    |unfold ConvertArmAvgPoolLayout_callback];
    unfold bind at 1, get_graph; cbv beta iota; rewrite Htc; unfold as_type_ptr;
    (destruct (g !! n) as [node|]; [|reflexivity]);
    destruct (node_op node); try discriminate H; reflexivity.
Qed.

Lemma callback_rank_unsupported tc pass g n node shape :
  g !! n = Some node ->
  output_partial_shapes node !! 0%nat = Some shape ->
  (length shape < 4)%nat \/ (5 < length shape)%nat ->
  callback tc pass n g = Ok (false, g).
Proof.
  intros Hn Hs Hrank.
  destruct (tc g n) eqn:Htc; [by apply callback_excluded|].
  destruct (is_root pass g n) eqn:Hroot; [|by apply callback_not_root].
  assert (Hrk : ((length shape <? 4)%nat || (5 <? length shape)%nat) = true).
  { apply orb_true_iff. rewrite !Nat.ltb_lt. lia. }
  pose proof (get_output_partial_shape_run g [] n node 0 shape Hn Hs) as E.
  rewrite app_nil_r in E.
  unfold is_root in Hroot. rewrite Hn in Hroot.
  destruct pass; cbn [callback];
    [unfold ConvertArmConvolutionLayout_callback
    |unfold ConvertArmMaxPoolV1Layout_callback
    |unfold ConvertArmMaxPoolV8Layout_callback
    |unfold ConvertArmAvgPoolLayout_callback];
    unfold bind at 1, get_graph; cbv beta iota; rewrite Htc; unfold as_type_ptr;
    rewrite Hn; destruct (node_op node); try discriminate Hroot; cbn [root_type];
    cbv beta iota;
    [cbn [as_ArmConvolution]|cbn [as_ArmMaxPoolV1]
    |cbn [as_ArmMaxPoolV8]|cbn [as_ArmAvgPool]];
    rewrite (bind_run _ _ _ _ _ E); cbv beta zeta; by rewrite Hrk.
Qed.

(** *** The unsupported-rank exception *)

Lemma never_throws_ret {A} what (a : A) : never_throws what (ret a).
Proof. intros g. discriminate. Qed.

Lemma never_throws_bind {A B} what (m : M A) (k : A -> M B) :
  never_throws what m -> (forall a, never_throws what (k a)) ->
  never_throws what (bind m k).
Proof.
  intros Hm Hk g. unfold bind. destruct (m g) as [[a g']|e] eqn:E.
  - apply Hk.
  - intros [= ->]. by apply (Hm g).
Qed.

Lemma never_throws_throw {A} what what' :
  what' <> what -> never_throws what (@throw A what').
Proof. intros Hne g [= H]. done. Qed.

Lemma never_throws_or_throw {A} what what' (o : option A) :
  what' <> what -> never_throws what (or_throw o what').
Proof.
  intros Hne. destruct o; [apply never_throws_ret | by apply never_throws_throw].
Qed.

Lemma never_throws_get_graph what : never_throws what get_graph.
Proof. intros g. discriminate. Qed.

Lemma never_throws_modify what f : never_throws what (modify f).
Proof. intros g. discriminate. Qed.

Lemma never_throws_make_shared what op ins : never_throws what (make_shared op ins).
Proof. intros g. discriminate. Qed.

Lemma out_of_range_other : out_of_range <> unsupported_rank.
Proof. discriminate. Qed.

Lemma output_size_mismatch_other : output_size_mismatch <> unsupported_rank.
Proof. discriminate. Qed.

Create HintDb no_throw.
#[local] Hint Resolve never_throws_ret never_throws_get_graph never_throws_modify
  never_throws_make_shared out_of_range_other output_size_mismatch_other
  : no_throw.
#[local] Hint Extern 1 (never_throws _ (bind _ _)) =>
  apply never_throws_bind; [|intros ?] : no_throw.
#[local] Hint Extern 1 (never_throws _ (or_throw _ _)) =>
  apply never_throws_or_throw : no_throw.
#[local] Hint Extern 1 (never_throws _ (throw _)) =>
  apply never_throws_throw : no_throw.
#[local] Hint Extern 2 (never_throws _ (if ?b then _ else _)) =>
  destruct b : no_throw.

Ltac no_throw := auto 20 with no_throw.

Lemma never_throws_get_output_partial_shape n i :
  never_throws unsupported_rank (get_output_partial_shape n i).
Proof. unfold get_output_partial_shape. no_throw. Qed.

Lemma never_throws_input_value n i :
  never_throws unsupported_rank (input_value n i).
Proof. unfold input_value. no_throw. Qed.

Lemma never_throws_get_input_size n :
  never_throws unsupported_rank (get_input_size n).
Proof. unfold get_input_size. no_throw. Qed.

Lemma never_throws_get_friendly_name n :
  never_throws unsupported_rank (get_friendly_name n).
Proof. unfold get_friendly_name. no_throw. Qed.

Lemma never_throws_set_friendly_name n name :
  never_throws unsupported_rank (set_friendly_name n name).
Proof. unfold set_friendly_name. no_throw. Qed.

Lemma never_throws_copy_runtime_info from to :
  never_throws unsupported_rank (copy_runtime_info from to).
Proof. unfold copy_runtime_info. no_throw. Qed.

Lemma never_throws_replace_node_values n repl :
  never_throws unsupported_rank (replace_node_values n repl).
Proof. unfold replace_node_values. no_throw. Qed.

#[local] Hint Resolve never_throws_replace_node_values : no_throw.

Lemma never_throws_replace_node n r :
  never_throws unsupported_rank (replace_node n r).
Proof. unfold replace_node. no_throw. Qed.

Lemma never_throws_transpose_output_shape n rank :
  never_throws unsupported_rank (transpose_output_shape n rank).
Proof.
  unfold transpose_output_shape.
  apply never_throws_bind; [apply never_throws_get_output_partial_shape|].
  intros shape. no_throw.
Qed.

(** The helpers throw for no rank the callbacks call them with. *)
Lemma never_throws_transpose_on_input input rank :
  rank = 4%nat \/ rank = 5%nat ->
  never_throws unsupported_rank (transpose_on_input input rank).
Proof. intros [-> | ->]; unfold transpose_on_input, Constant_create; no_throw. Qed.

Lemma never_throws_transpose_on_output input rank :
  rank = 4%nat \/ rank = 5%nat ->
  never_throws unsupported_rank (transpose_on_output input rank).
Proof. intros [-> | ->]; unfold transpose_on_output, Constant_create; no_throw. Qed.

Lemma rank_check_supported (rank : nat) :
  ((rank <? 4)%nat || (5 <? rank)%nat) = false -> rank = 4%nat \/ rank = 5%nat.
Proof.
  intros H. apply orb_false_iff in H as [H1 H2].
  apply Nat.ltb_ge in H1, H2. lia.
Qed.

#[local] Hint Resolve never_throws_get_output_partial_shape
  never_throws_input_value never_throws_get_input_size
  never_throws_get_friendly_name never_throws_set_friendly_name
  never_throws_copy_runtime_info never_throws_replace_node
  never_throws_transpose_output_shape never_throws_transpose_on_input
  never_throws_transpose_on_output : no_throw.

Ltac callback_no_throw :=
  apply never_throws_bind; [apply never_throws_get_graph|intros g];
  match goal with |- never_throws _ (if ?b then _ else _) => destruct b end;
  [apply never_throws_ret|];
  match goal with |- never_throws _ (match ?o with _ => _ end) => destruct o end;
  [|apply never_throws_ret];
  apply never_throws_bind; [apply never_throws_get_output_partial_shape|];
  intros shape; cbv zeta;
  match goal with
  | |- never_throws _ (if ?b then _ else _) =>
      destruct b eqn:Hrank; [apply never_throws_ret|];
      apply rank_check_supported in Hrank
  end.

Lemma callback_never_throws_unsupported_rank tc pass n :
  never_throws unsupported_rank (callback tc pass n).
Proof.
  destruct pass; cbn [callback].
  - unfold ConvertArmConvolutionLayout_callback. callback_no_throw. no_throw.
  - unfold ConvertArmMaxPoolV1Layout_callback. callback_no_throw. no_throw.
  - unfold ConvertArmMaxPoolV8Layout_callback. callback_no_throw. no_throw.
  - unfold ConvertArmAvgPoolLayout_callback. callback_no_throw. no_throw.
Qed.

(** C5: every callback is atomic on failure.  When [transformation_callback]
    selects the node, or the node is not of the operator type of the pass, or
    the rank of its output is below 4 or above 5, the callback returns [false]
    and the graph is the one it was given; and no callback ends in the
    "ConvertLayout: unsupported rank" exception of the transpose helpers,
    whatever the node. *)
Theorem layout_callback_atomic_on_failure
    (tc : Graph -> NodeId -> bool) (pass : LayoutPass) (g : Graph) (n : NodeId) :
  (tc g n = true
   \/ is_root pass g n = false
   \/ (exists node shape,
         g !! n = Some node
         /\ output_partial_shapes node !! 0%nat = Some shape
         /\ ((length shape < 4)%nat \/ (5 < length shape)%nat)) ->
   callback tc pass n g = Ok (false, g))
  /\ callback tc pass n g <> Throw unsupported_rank.
Proof.
  split.
  - intros [H | [H | (node & shape & Hn & Hs & Hrank)]].
    + by apply callback_excluded.
    + by apply callback_not_root.
    + by apply callback_rank_unsupported with node shape.
  - apply callback_never_throws_unsupported_rank.
Qed.

Lemma layout_callback_atomic_on_failure_witness :
  always_excluded example_graph 3%nat = true
  /\ callback always_excluded ConvertArmConvolutionLayout 3 example_graph
     = Ok (false, example_graph)
  /\ callback always_excluded ConvertArmConvolutionLayout 3 example_graph
     <> Throw unsupported_rank.
Proof.
  split; [reflexivity|].
  destruct (layout_callback_atomic_on_failure always_excluded
              ConvertArmConvolutionLayout example_graph 3) as [Hfalse Hthrow].
  split; [apply Hfalse; by left | exact Hthrow].
Defined.

(** ** The axis guard of the MaxPool-v8 pass (C6) *)

Lemma maxpool_v8_axis_blocked tc g n node pool shape :
  g !! n = Some node ->
  node_op node = OpArmMaxPoolV8 pool ->
  output_partial_shapes node !! 0%nat = Some shape ->
  length shape = 4%nat \/ length shape = 5%nat ->
  1 < ArmMaxPoolV8.get_axis pool
  \/ - Z.of_nat (length shape) <= ArmMaxPoolV8.get_axis pool < 0 ->
  ConvertArmMaxPoolV8Layout_callback tc n g = Ok (false, g).
Proof.
  intros Hn Hop Hs Hrank Haxis.
  destruct (tc g n) eqn:Htc;
    [by apply (callback_excluded tc ConvertArmMaxPoolV8Layout)|].
  pose proof (get_output_partial_shape_run g [] n node 0 shape Hn Hs) as E.
  rewrite app_nil_r in E.
  unfold ConvertArmMaxPoolV8Layout_callback.
  unfold bind at 1, get_graph. cbv beta iota. rewrite Htc.
  unfold as_type_ptr. rewrite Hn, Hop. cbn [as_ArmMaxPoolV8].
  rewrite (bind_run _ _ _ _ _ E). cbv beta zeta.
  rewrite (rank_check_passes _ Hrank).
  by rewrite (axis_guard_true _ _ Hrank Haxis).
Qed.

(** C6: over the valid axes of a matched MaxPool-v8 of rank 4 or 5 (those not
    below [-rank]), the pass rewrites the node only when the axis is 0 or 1:
    the callback returns [false] and leaves the graph alone for every axis
    above 1 and for every negative axis in [-rank .. -1], the negative
    spellings of axis 0 and 1 included. *)
Theorem maxpool_v8_rewritten_only_for_axis_0_or_1
    (tc : Graph -> NodeId -> bool) (g : Graph) (n : NodeId) (node : Node)
    (pool : ArmMaxPoolV8.t) (shape : PartialShape) :
  g !! n = Some node ->
  node_op node = OpArmMaxPoolV8 pool ->
  output_partial_shapes node !! 0%nat = Some shape ->
  length shape = 4%nat \/ length shape = 5%nat ->
  - Z.of_nat (length shape) <= ArmMaxPoolV8.get_axis pool ->
  (1 < ArmMaxPoolV8.get_axis pool \/ ArmMaxPoolV8.get_axis pool < 0 ->
   ConvertArmMaxPoolV8Layout_callback tc n g = Ok (false, g))
  /\ (forall g', ConvertArmMaxPoolV8Layout_callback tc n g = Ok (true, g') ->
                 ArmMaxPoolV8.get_axis pool = 0 \/ ArmMaxPoolV8.get_axis pool = 1).
Proof.
  intros Hn Hop Hs Hrank Hvalid.
  assert (Hblocked : 1 < ArmMaxPoolV8.get_axis pool \/ ArmMaxPoolV8.get_axis pool < 0 ->
                     ConvertArmMaxPoolV8Layout_callback tc n g = Ok (false, g)).
  { intros Haxis. apply (maxpool_v8_axis_blocked tc g n node pool shape); try done. lia. }
  split; [exact Hblocked|].
  intros g' Hrun.
  destruct (Z.lt_ge_cases 1 (ArmMaxPoolV8.get_axis pool)) as [H1|H1];
    [rewrite Hblocked in Hrun by (by left); discriminate|].
  destruct (Z.lt_ge_cases (ArmMaxPoolV8.get_axis pool) 0) as [H0|H0];
    [rewrite Hblocked in Hrun by (by right); discriminate|].
  lia.
Qed.

Lemma maxpool_v8_rewritten_only_for_axis_0_or_1_witness :
  - Z.of_nat (length (dims [1; 8; 3; 3])) <= ArmMaxPoolV8.get_axis (example_pool_v8 (-4))
  /\ (1 < ArmMaxPoolV8.get_axis (example_pool_v8 (-4))
      \/ ArmMaxPoolV8.get_axis (example_pool_v8 (-4)) < 0)
  /\ ConvertArmMaxPoolV8Layout_callback never_excluded 1
       (example_pool8_graph (-4))
     = Ok (false, (example_pool8_graph (-4))).
Proof.
  split; [simpl; lia|]. split; [right; simpl; lia|].
  destruct (maxpool_v8_rewritten_only_for_axis_0_or_1 never_excluded
              (example_pool8_graph (-4)) 1
              (mkNode (OpArmMaxPoolV8 (example_pool_v8 (-4))) [mkOutput 0 0]
                      [dims [1; 8; 3; 3]; dims [1; 8; 3; 3]] "pool8" [])
              (example_pool_v8 (-4)) (dims [1; 8; 3; 3]))
    as [Hblocked _];
    [reflexivity | reflexivity | reflexivity | by left | simpl; lia |].
  apply Hblocked. right. simpl. lia.
Defined.

(** An axis below [-rank] is outside the range the operator accepts; the
    guard of the pass does not test for it, and the callback goes on. *)
Example maxpool_v8_axis_below_minus_rank_passes_guard :
  exists g',
    ConvertArmMaxPoolV8Layout_callback never_excluded 1 (example_pool8_graph (-5))
    = Ok (true, g').
Proof. eexists. vm_compute. reflexivity. Qed.

(** * The Mod kernel dispatcher *)

(** ** Row-major indexing and broadcasting *)

Lemma flat_index_lt shape coords :
  in_bounds coords shape -> (flat_index shape coords < num_elements shape)%nat.
Proof.
  intros H. induction H as [|c d cs shape Hcd _ IH]; simpl; [lia|]. nia.
Qed.

Lemma coordinates_flat_index shape coords :
  in_bounds coords shape -> coordinates shape (flat_index shape coords) = coords.
Proof.
  intros H. induction H as [|c d cs shape Hcd Hrest IH]; simpl; [done|].
  pose proof (flat_index_lt _ _ Hrest) as Hlt.
  f_equal.
  - rewrite Nat.div_add_l by lia. rewrite Nat.div_small by done. lia.
  - rewrite Nat.add_comm, Nat.Div0.mod_add. by rewrite Nat.mod_small.
Qed.

Lemma coordinates_in_bounds shape i :
  (i < num_elements shape)%nat -> in_bounds (coordinates shape i) shape.
Proof.
  revert i. induction shape as [|d shape IH]; intros i Hi; simpl in *; [constructor|].
  assert (0 < num_elements shape)%nat by nia.
  constructor.
  - apply Nat.Div0.div_lt_upper_bound. lia.
  - apply IH. apply Nat.mod_upper_bound. lia.
Qed.

Lemma flat_index_coordinates shape i :
  (i < num_elements shape)%nat -> flat_index shape (coordinates shape i) = i.
Proof.
  revert i. induction shape as [|d shape IH]; intros i Hi; simpl in *; [lia|].
  assert (0 < num_elements shape)%nat by nia.
  rewrite IH by (apply Nat.mod_upper_bound; lia).
  pose proof (Nat.div_mod_eq i (num_elements shape)). lia.
Qed.

Lemma broadcast_coordinates_cons d src c coords :
  broadcast_coordinates (d :: src) (c :: coords)
  = (if (d =? 1)%nat then 0%nat else c) :: broadcast_coordinates src coords.
Proof. reflexivity. Qed.

Lemma broadcast_in_bounds src dst coords :
  broadcastable src dst -> in_bounds coords dst ->
  in_bounds (broadcast_coordinates src coords) src.
Proof.
  intros Hb. revert coords.
  induction Hb as [|s d src dst Hsd _ IH]; intros coords Hc.
  - inversion Hc; subst. constructor.
  - inversion Hc as [|c d' cs dst' Hcd Hcs]; subst.
    rewrite broadcast_coordinates_cons. constructor; [|by apply IH].
    destruct (Nat.eqb_spec s 1); lia.
Qed.

Lemma broadcast_same shape coords :
  in_bounds coords shape -> broadcast_coordinates shape coords = coords.
Proof.
  induction 1 as [|c d cs shape Hcd _ IH]; [done|].
  rewrite broadcast_coordinates_cons, IH. f_equal.
  destruct (Nat.eqb_spec d 1); lia.
Qed.

Lemma srcIndex_lt m i :
  broadcastable (src_shape m) (dst_shape m) ->
  (i < num_elements (dst_shape m))%nat ->
  (srcIndex m i < num_elements (src_shape m))%nat.
Proof.
  intros Hb Hi. apply flat_index_lt, (broadcast_in_bounds _ (dst_shape m)); [done|].
  by apply coordinates_in_bounds.
Qed.

Lemma srcIndex_flat_index m coords :
  in_bounds coords (dst_shape m) ->
  srcIndex m (flat_index (dst_shape m) coords)
  = flat_index (src_shape m) (broadcast_coordinates (src_shape m) coords).
Proof. intros H. unfold srcIndex. by rewrite coordinates_flat_index. Qed.

Lemma srcIndex_same_shape m i :
  src_shape m = dst_shape m -> (i < num_elements (dst_shape m))%nat ->
  srcIndex m i = i.
Proof.
  intros Hsame Hi. unfold srcIndex. rewrite Hsame.
  rewrite broadcast_same by (by apply coordinates_in_bounds).
  by apply flat_index_coordinates.
Qed.

(** ** The generic dispatcher *)

Lemma ElementwiseBinary_call_elements {T} (OP : T -> T -> T) self in0 m0 in1 m1 :
  (forall i, (i < out_num_elements_ self)%nat ->
     (srcIndex m0 i < length in0)%nat /\ (srcIndex m1 i < length in1)%nat) ->
  exists out,
    ElementwiseBinary_call OP self in0 m0 in1 m1 = Some out
    /\ length out = out_num_elements_ self
    /\ forall i, (i < out_num_elements_ self)%nat ->
         exists a b, in0 !! srcIndex m0 i = Some a
                     /\ in1 !! srcIndex m1 i = Some b
                     /\ out !! i = Some (OP a b).
Proof.
  intros Hin. unfold ElementwiseBinary_call.
  set (f := elementwise_binary_element OP in0 m0 in1 m1).
  assert (Hsome : is_Some (mapM f (seq 0 (out_num_elements_ self)))).
  { apply mapM_is_Some, Forall_forall. intros i Hi%elem_of_seq.
    destruct (Hin i) as [H0 H1]; [lia|].
    apply lookup_lt_is_Some in H0 as [a Ha], H1 as [b Hb].
    unfold compose, f, elementwise_binary_element. rewrite Ha, Hb. by eexists. }
  destruct Hsome as [out Hout]. exists out. split; [done|].
  apply mapM_Some in Hout.
  pose proof (Forall2_length _ _ _ Hout) as Hlen. rewrite length_seq in Hlen.
  split; [done|]. intros i Hi.
  destruct (Hin i Hi) as [H0 H1].
  apply lookup_lt_is_Some in H0 as [a Ha], H1 as [b Hb].
  exists a, b. split; [done|]. split; [done|].
  assert (Hseq : seq 0 (out_num_elements_ self) !! i = Some i) by (by apply lookup_seq).
  destruct (Forall2_lookup_l _ _ _ _ _ Hout Hseq) as (y & Hy & Hf).
  unfold f, elementwise_binary_element in Hf. rewrite Ha, Hb in Hf. simpl in Hf.
  congruence.
Qed.

(** C8: for every pair of input tensors and every output element, the call
    of [Mod] computes the modulo of the two input elements that its mappers
    select: output element [i] is [ModOpImpl] of [in0[in0_mapper.srcIndex(i)]]
    and [in1[in1_mapper.srcIndex(i)]].  The selection is numpy broadcasting:
    the output element at coordinates [coords] combines the input elements at
    the same coordinates, read at 0 along every dimension where the input has
    extent 1; an input of the shape of the output is read at the index of the
    output element. *)
Theorem mod_computes_elementwise_modulo_with_broadcasting
    {T : Type} (ModOpImpl : T -> T -> T) (self : Mod) (out_shape : list nat)
    (in0 : list T) (in0_mapper : NumpyBroadcastMapper)
    (in1 : list T) (in1_mapper : NumpyBroadcastMapper) :
  out_num_elements_ (impl_ self) = num_elements out_shape ->
  dst_shape in0_mapper = out_shape ->
  dst_shape in1_mapper = out_shape ->
  broadcastable (src_shape in0_mapper) out_shape ->
  broadcastable (src_shape in1_mapper) out_shape ->
  length in0 = num_elements (src_shape in0_mapper) ->
  length in1 = num_elements (src_shape in1_mapper) ->
  exists out,
    Mod_call ModOpImpl self in0 in0_mapper in1 in1_mapper = Some out
    /\ length out = num_elements out_shape
    /\ (forall i, (i < num_elements out_shape)%nat ->
          exists a b,
            in0 !! srcIndex in0_mapper i = Some a
            /\ in1 !! srcIndex in1_mapper i = Some b
            /\ out !! i = Some (ModOpImpl a b))
    /\ (forall coords, in_bounds coords out_shape ->
          exists a b,
            in0 !! flat_index (src_shape in0_mapper)
                     (broadcast_coordinates (src_shape in0_mapper) coords) = Some a
            /\ in1 !! flat_index (src_shape in1_mapper)
                        (broadcast_coordinates (src_shape in1_mapper) coords) = Some b
            /\ out !! flat_index out_shape coords = Some (ModOpImpl a b))
    /\ (src_shape in0_mapper = out_shape ->
        forall i, (i < num_elements out_shape)%nat -> srcIndex in0_mapper i = i)
    /\ (src_shape in1_mapper = out_shape ->
        forall i, (i < num_elements out_shape)%nat -> srcIndex in1_mapper i = i).
Proof.
  intros Hn Hd0 Hd1 Hb0 Hb1 Hl0 Hl1.
  destruct (ElementwiseBinary_call_elements ModOpImpl (impl_ self)
              in0 in0_mapper in1 in1_mapper) as (out & Hcall & Hlen & Helem).
  { intros i Hi. rewrite Hn in Hi. rewrite Hl0, Hl1. split.
    - apply srcIndex_lt; by rewrite Hd0.
    - apply srcIndex_lt; by rewrite Hd1. }
  rewrite Hn in Hlen, Helem.
  exists out. split; [exact Hcall|]. split; [exact Hlen|]. split; [exact Helem|].
  split; [|split].
  - intros coords Hc.
    destruct (Helem (flat_index out_shape coords) (flat_index_lt _ _ Hc))
      as (a & b & Ha & Hb & Ho).
    exists a, b.
    rewrite <- (srcIndex_flat_index in0_mapper coords) by (by rewrite Hd0).
    rewrite <- (srcIndex_flat_index in1_mapper coords) by (by rewrite Hd1).
    by rewrite Hd0, Hd1.
  - intros Hsame i Hi. apply srcIndex_same_shape; by rewrite Hd0.
  - intros Hsame i Hi. apply srcIndex_same_shape; by rewrite Hd1.
Qed.

(** A 2x3 tensor modulo a row of 3, broadcast over the rows. *)
Example mod_broadcast_row :
  Mod_call ModOpImpl_int (Mod_new t_i32 256 6)
           [7; 8; 9; -7; -8; -9] (mkNumpyBroadcastMapper [2; 3]%nat [2; 3]%nat)
           [2; 3; 4] (mkNumpyBroadcastMapper [1; 3]%nat [2; 3]%nat)
  = Some [1; 2; 1; -1; -2; -1].
Proof. reflexivity. Qed.

Lemma mod_computes_elementwise_modulo_with_broadcasting_witness :
  out_num_elements_ (impl_ (Mod_new t_i32 256 6)) = num_elements [2; 3]%nat
  /\ broadcastable [1; 3]%nat [2; 3]%nat
  /\ exists out,
       Mod_call ModOpImpl_int (Mod_new t_i32 256 6)
                [7; 8; 9; -7; -8; -9] (mkNumpyBroadcastMapper [2; 3]%nat [2; 3]%nat)
                [2; 3; 4] (mkNumpyBroadcastMapper [1; 3]%nat [2; 3]%nat)
       = Some out
       /\ length out = num_elements [2; 3]%nat.
Proof.
  split; [reflexivity|].
  assert (Hb : broadcastable [1; 3]%nat [2; 3]%nat).
  { constructor; [by right|]. constructor; [by left|]. constructor. }
  split; [exact Hb|].
  destruct (mod_computes_elementwise_modulo_with_broadcasting ModOpImpl_int
              (Mod_new t_i32 256 6) [2; 3]%nat
              [7; 8; 9; -7; -8; -9] (mkNumpyBroadcastMapper [2; 3]%nat [2; 3]%nat)
              [2; 3; 4] (mkNumpyBroadcastMapper [1; 3]%nat [2; 3]%nat))
    as (out & Hcall & Hlen & _);
    [reflexivity | reflexivity | reflexivity
    | repeat constructor | exact Hb | reflexivity | reflexivity |].
  exists out. by split.
Defined.

(** * Further properties of the layout passes *)

(** ** The loop of [transpose_output_shape] *)

Lemma transpose_output_shape_loop_inv shape perm count :
  forall i acc r,
    transpose_output_shape_loop shape perm i count acc = Some r ->
    length r = (length acc + count)%nat
    /\ ((0 < count)%nat -> (i + count <= length perm)%nat)
    /\ take (length acc) r = acc
    /\ forall j, (j < count)%nat ->
         exists p d, perm !! (i + j)%nat = Some p
                     /\ shape_at shape p = Some d
                     /\ r !! (length acc + j)%nat = Some d.
Proof.
  induction count as [|count IH]; intros i acc r Hr; simpl in Hr.
  - injection Hr as <-.
    split; [lia|]. split; [lia|]. split; [by rewrite firstn_all|]. lia.
  - destruct (perm !! i) as [p|] eqn:Hp; [|discriminate].
    destruct (shape_at shape p) as [d|] eqn:Hd; [|discriminate].
    pose proof (lookup_lt_Some _ _ _ Hp) as Hlt.
    destruct (IH _ _ _ Hr) as (Hlen & Hbound & Htake & Helem).
    rewrite length_app in Hlen, Htake, Helem. simpl in *.
    assert (Hacc : take (length acc) r = acc).
    { apply (f_equal (take (length acc))) in Htake.
      rewrite take_take, Nat.min_l in Htake by lia.
      by rewrite Htake, take_app_length. }
    assert (Hd0 : r !! length acc = Some d).
    { apply (f_equal (fun l => l !! length acc)) in Htake.
      rewrite lookup_take_lt in Htake by lia.
      rewrite Htake. by rewrite lookup_app_r, Nat.sub_diag by lia. }
    split; [lia|]. split; [lia|]. split; [done|].
    intros [|j] Hj.
    + rewrite !Nat.add_0_r. eauto.
    + destruct (Helem j) as (p' & d' & Hp' & Hd' & Hr'); [lia|].
      exists p', d'. replace (i + S j)%nat with (S i + j)%nat by lia.
      replace (length acc + S j)%nat with (length acc + 1 + j)%nat by lia. done.
Qed.

(** X1: whenever [transpose_output_shape] has a result, for any rank and any
    shape, the result has exactly [rank] dimensions, [rank] is at most 5, and
    dimension [i] of the result is dimension [perm[i]] of the shape, where
    [perm] is [nchw_to_nhwc] for rank 4 and [ncdhw_to_ndhwc] for every other
    rank, ranks below 4 included. *)
Theorem transpose_output_shape_of_any_rank
    (shape new_output_shape : PartialShape) (rank : nat) :
  transpose_output_shape_of shape rank = Some new_output_shape ->
  length new_output_shape = rank
  /\ (rank <= 5)%nat
  /\ forall i, (i < rank)%nat ->
       exists p d,
         (if (rank =? 4)%nat then nchw_to_nhwc else ncdhw_to_ndhwc) !! i = Some p
         /\ shape_at shape p = Some d
         /\ new_output_shape !! i = Some d.
Proof.
  unfold transpose_output_shape_of. intros H.
  destruct (transpose_output_shape_loop_inv _ _ _ _ _ _ H)
    as (Hlen & Hbound & _ & Helem).
  simpl in Hlen, Hbound, Helem. split; [done|]. split; [|done].
  destruct rank as [|rank]; [lia|].
  destruct (S rank =? 4)%nat eqn:E; simpl in Hbound; lia.
Qed.

Lemma transpose_output_shape_of_any_rank_witness :
  transpose_output_shape_of (dims [1; 8; 30; 30]) 3 = Some (dims [1; 30; 30])
  /\ length (dims [1; 30; 30]) = 3%nat
  /\ (3 <= 5)%nat
  /\ forall i, (i < 3)%nat ->
       exists p d,
         (if (3 =? 4)%nat then nchw_to_nhwc else ncdhw_to_ndhwc) !! i = Some p
         /\ shape_at (dims [1; 8; 30; 30]) p = Some d
         /\ dims [1; 30; 30] !! i = Some d.
Proof.
  split; [reflexivity|].
  apply (transpose_output_shape_of_any_rank (dims [1; 8; 30; 30]) (dims [1; 30; 30]) 3).
  reflexivity.
Defined.

(** X2: on a shape [n :: c :: spatial] with two or three spatial dimensions,
    [transpose_output_shape] gives the channel-last shape
    [n :: spatial ++ [c]]: the batch dimension stays first, the spatial
    dimensions keep their order and the channel dimension goes last; the
    output-side permutation brings that shape back to [n :: c :: spatial]. *)
Theorem transpose_output_shape_is_channel_last
    (n c : Dimension) (spatial : list Dimension) :
  length spatial = 2%nat \/ length spatial = 3%nat ->
  transpose_output_shape_of (n :: c :: spatial) (length (n :: c :: spatial))
  = Some (n :: spatial ++ [c])
  /\ permute (output_order (length (n :: c :: spatial))) (n :: spatial ++ [c])
     = Some (n :: c :: spatial).
Proof.
  intros [H | H].
  - destruct spatial as [|h [|w [|x spatial]]]; try discriminate. by split.
  - destruct spatial as [|d [|h [|w [|x spatial]]]]; try discriminate. by split.
Qed.

Lemma transpose_output_shape_is_channel_last_witness :
  (length (dims [30; 30]) = 2%nat \/ length (dims [30; 30]) = 3%nat)
  /\ transpose_output_shape_of (Dim 1 1 :: Dim 8 8 :: dims [30; 30])
       (length (Dim 1 1 :: Dim 8 8 :: dims [30; 30]))
     = Some (Dim 1 1 :: dims [30; 30] ++ [Dim 8 8])
  /\ permute (output_order (length (Dim 1 1 :: Dim 8 8 :: dims [30; 30])))
             (Dim 1 1 :: dims [30; 30] ++ [Dim 8 8])
     = Some (Dim 1 1 :: Dim 8 8 :: dims [30; 30]).
Proof.
  split; [by left|].
  apply (transpose_output_shape_is_channel_last (Dim 1 1) (Dim 8 8) (dims [30; 30])).
  by left.
Defined.

(** ** The transpose helpers *)

Lemma is_transpose_appended (g l : Graph) t c cid tn data order :
  l !! t = Some tn ->
  node_op tn = OpTranspose ->
  input_values tn = [data; mkOutput cid 0] ->
  cid = (length g + c)%nat ->
  l !! c = Some (constant_node order) ->
  is_transpose (g ++ l) (length g + t) data order.
Proof.
  intros Ht Hop Hin -> Hc. exists tn, (length g + c)%nat, (constant_node order).
  rewrite !lookup_new. by repeat split.
Qed.

Lemma rank_not_supported_cases (rank : nat) :
  rank <> 4%nat -> rank <> 5%nat ->
  match rank with 4%nat | 5%nat => False | _ => True end.
Proof. intros H4 H5. by destruct rank as [|[|[|[|[|[|rank]]]]]]. Qed.

(** X3: [transpose_on_input] succeeds for rank 4 and 5 on data of that rank.
    It then appends two nodes, the constant permutation and a Transpose of
    [input] by it, returns the Transpose, whose output has the channel-last
    permutation of the shape of the data, and leaves every node that was in
    the graph as it was.  For every other rank it throws "ConvertLayout:
    unsupported rank", whatever the input. *)
Theorem transpose_on_input_supported_ranks
    (input : Output) (rank : nat) (g : Graph) :
  (rank = 4%nat \/ rank = 5%nat ->
   forall shape,
     output_shape_of g input = Some shape ->
     length shape = rank ->
     exists t g' shape',
       transpose_on_input input rank g = Ok (t, g')
       /\ length g' = (length g + 2)%nat
       /\ is_transpose g' t input (input_order rank)
       /\ permute (input_order rank) shape = Some shape'
       /\ output_shape_of g' (mkOutput t 0) = Some shape'
       /\ forall m old, g !! m = Some old -> g' !! m = Some old)
  /\ (rank <> 4%nat -> rank <> 5%nat ->
      transpose_on_input input rank g = Throw unsupported_rank).
Proof.
  split.
  - intros Hrank shape Hdata Hlen.
    destruct (permute_input_total shape rank Hlen Hrank) as (shape' & Hperm).
    pose proof (transpose_on_input_run input rank g [] Hrank) as E.
    cbn [app length] in E. rewrite ?app_nil_r, ?Nat.add_0_r in E.
    assert (Hs : infer_shapes (g ++ [constant_node (input_order rank)]) OpTranspose
                   [input; mkOutput (length g) 0] = [shape']).
    { apply infer_transpose with (shape := shape) (perm := input_order rank);
        [| |done].
      - by apply output_shape_of_old.
      - unfold constant_values. cbn [get_node].
        rewrite <- (Nat.add_0_r (length g)). by rewrite lookup_new. }
    rewrite Hs in E.
    do 2 eexists. exists shape'. split; [exact E|].
    split; [rewrite length_app; simpl; lia|].
    split; [eapply (is_transpose_appended g _ 1 0); [reflexivity..|lia|reflexivity]|].
    split; [exact Hperm|].
    split; [|intros m old Hm; by apply lookup_old].
    unfold output_shape_of. cbn [get_node get_index]. by rewrite lookup_new.
  - intros H4 H5. pose proof (rank_not_supported_cases rank H4 H5) as H.
    by destruct rank as [|[|[|[|[|[|rank]]]]]].
Qed.

Lemma transpose_on_input_supported_ranks_witness :
  output_shape_of example_graph (mkOutput 0 0) = Some (dims [1; 3; 32; 32])
  /\ (exists t g' shape',
        transpose_on_input (mkOutput 0 0) 4 example_graph = Ok (t, g')
        /\ length g' = (length example_graph + 2)%nat
        /\ is_transpose g' t (mkOutput 0 0) (input_order 4)
        /\ permute (input_order 4) (dims [1; 3; 32; 32]) = Some shape'
        /\ output_shape_of g' (mkOutput t 0) = Some shape'
        /\ forall m old, example_graph !! m = Some old -> g' !! m = Some old)
  /\ transpose_on_input (mkOutput 0 0) 6 example_graph = Throw unsupported_rank.
Proof.
  destruct (transpose_on_input_supported_ranks (mkOutput 0 0) 4 example_graph)
    as [Hok _].
  destruct (transpose_on_input_supported_ranks (mkOutput 0 0) 6 example_graph)
    as [_ Hthrow].
  split; [reflexivity|].
  split; [apply Hok; [by left | reflexivity | reflexivity]
         | apply Hthrow; discriminate].
Defined.

Lemma permute_output_total {A} (shape : list A) rank :
  length shape = rank -> rank = 4%nat \/ rank = 5%nat ->
  exists shape', permute (output_order rank) shape = Some shape'.
Proof.
  intros Hlen [-> | ->].
  - destruct shape as [|a [|b [|c [|d [|e shape]]]]]; try discriminate. by eexists.
  - destruct shape as [|a [|b [|c [|d [|e [|f shape]]]]]]; try discriminate.
    by eexists.
Qed.

(** X4: [transpose_on_output] succeeds for rank 4 and 5 on data of that rank.
    It then appends two nodes, the constant inverse permutation and a
    Transpose of [input] by it, returns the Transpose, whose output has the
    channel-first permutation of the shape of the data, and leaves every node
    that was in the graph as it was.  For every other rank it throws
    "ConvertLayout: unsupported rank", whatever the input. *)
Theorem transpose_on_output_supported_ranks
    (input : Output) (rank : nat) (g : Graph) :
  (rank = 4%nat \/ rank = 5%nat ->
   forall shape,
     output_shape_of g input = Some shape ->
     length shape = rank ->
     exists t g' shape',
       transpose_on_output input rank g = Ok (t, g')
       /\ length g' = (length g + 2)%nat
       /\ is_transpose g' t input (output_order rank)
       /\ permute (output_order rank) shape = Some shape'
       /\ output_shape_of g' (mkOutput t 0) = Some shape'
       /\ forall m old, g !! m = Some old -> g' !! m = Some old)
  /\ (rank <> 4%nat -> rank <> 5%nat ->
      transpose_on_output input rank g = Throw unsupported_rank).
Proof.
  split.
  - intros Hrank shape Hdata Hlen.
    destruct (permute_output_total shape rank Hlen Hrank) as (shape' & Hperm).
    pose proof (transpose_on_output_run input rank g [] Hrank) as E.
    cbn [app length] in E. rewrite ?app_nil_r, ?Nat.add_0_r in E.
    assert (Hs : infer_shapes (g ++ [constant_node (output_order rank)]) OpTranspose
                   [input; mkOutput (length g) 0] = [shape']).
    { apply infer_transpose with (shape := shape) (perm := output_order rank);
        [| |done].
      - by apply output_shape_of_old.
      - unfold constant_values. cbn [get_node].
        rewrite <- (Nat.add_0_r (length g)). by rewrite lookup_new. }
    rewrite Hs in E.
    do 2 eexists. exists shape'. split; [exact E|].
    split; [rewrite length_app; simpl; lia|].
    split; [eapply (is_transpose_appended g _ 1 0); [reflexivity..|lia|reflexivity]|].
    split; [exact Hperm|].
    split; [|intros m old Hm; by apply lookup_old].
    unfold output_shape_of. cbn [get_node get_index]. by rewrite lookup_new.
  - intros H4 H5. pose proof (rank_not_supported_cases rank H4 H5) as H.
    by destruct rank as [|[|[|[|[|[|rank]]]]]].
Qed.

Lemma transpose_on_output_supported_ranks_witness :
  output_shape_of example_graph (mkOutput 3 0) = Some (dims [1; 8; 30; 30])
  /\ (exists t g' shape',
        transpose_on_output (mkOutput 3 0) 4 example_graph = Ok (t, g')
        /\ length g' = (length example_graph + 2)%nat
        /\ is_transpose g' t (mkOutput 3 0) (output_order 4)
        /\ permute (output_order 4) (dims [1; 8; 30; 30]) = Some shape'
        /\ output_shape_of g' (mkOutput t 0) = Some shape'
        /\ forall m old, example_graph !! m = Some old -> g' !! m = Some old)
  /\ transpose_on_output (mkOutput 3 0) 3 example_graph = Throw unsupported_rank.
Proof.
  destruct (transpose_on_output_supported_ranks (mkOutput 3 0) 4 example_graph)
    as [Hok _].
  destruct (transpose_on_output_supported_ranks (mkOutput 3 0) 3 example_graph)
    as [_ Hthrow].
  split; [reflexivity|].
  split; [apply Hok; [by left | reflexivity | reflexivity]
         | apply Hthrow; discriminate].
Defined.

(** ** What the returned flag says about the graph *)

Lemma grows_by_bind {A B} j k (m : M A) (f : A -> M B) :
  grows_by j m -> (forall a, grows_by k (f a)) -> grows_by (j + k) (bind m f).
Proof.
  intros Hm Hf g b g''. unfold bind.
  destruct (m g) as [[a g']|] eqn:E; [|discriminate].
  intros H. rewrite (Hf a _ _ _ H), (Hm _ _ _ E). lia.
Qed.

Lemma finishes_bind {A B} j k v (m : M A) (f : A -> M B) :
  grows_by j m -> (forall a, finishes k v (f a)) -> finishes (j + k) v (bind m f).
Proof.
  intros Hm Hf g b g''. unfold bind.
  destruct (m g) as [[a g']|] eqn:E; [|discriminate].
  intros H. destruct (Hf a _ _ _ H) as [-> Hlen].
  split; [done|]. rewrite Hlen, (Hm _ _ _ E). lia.
Qed.

Lemma finishes_ret {A} (v : A) : finishes 0 v (ret v).
Proof. intros g a g' [= <- <-]. split; [done | lia]. Qed.

Lemma reads_only_grows {A} (m : M A) : reads_only m -> grows_by 0 m.
Proof. intros H g a g' E. rewrite (H _ _ _ E). lia. Qed.

Lemma reads_only_read {A} (f : Node -> option A) n :
  reads_only (g <~ get_graph ;; node <~ or_throw (g !! n) out_of_range ;;
              or_throw (f node) out_of_range).
Proof.
  intros g a g'. unfold bind, get_graph, or_throw.
  destruct (g !! n) as [node|]; [|discriminate]. simpl.
  destruct (f node); [|discriminate]. by intros [= _ <-].
Qed.

Lemma reads_only_get_output_partial_shape n i :
  reads_only (get_output_partial_shape n i).
Proof. apply (reads_only_read (fun node => output_partial_shapes node !! i)). Qed.

Lemma reads_only_input_value n i : reads_only (input_value n i).
Proof. apply (reads_only_read (fun node => input_values node !! i)). Qed.

Lemma reads_only_get_input_size n : reads_only (get_input_size n).
Proof.
  intros g a g'. unfold get_input_size, bind, get_graph, or_throw.
  destruct (g !! n) as [node|]; [|discriminate]. by intros [= _ <-].
Qed.

Lemma reads_only_get_friendly_name n : reads_only (get_friendly_name n).
Proof.
  intros g a g'. unfold get_friendly_name, bind, get_graph, or_throw.
  destruct (g !! n) as [node|]; [|discriminate]. by intros [= _ <-].
Qed.

Lemma reads_only_transpose_output_shape n rank :
  reads_only (transpose_output_shape n rank).
Proof.
  intros g a g'. unfold transpose_output_shape, bind.
  destruct (get_output_partial_shape n 0 g) as [[shape g1]|] eqn:E; [|discriminate].
  rewrite (reads_only_get_output_partial_shape _ _ _ _ _ E).
  unfold or_throw. destruct (transpose_output_shape_of shape rank); [|discriminate].
  by intros [= _ <-].
Qed.

Lemma grows_by_make_shared op ins : grows_by 1 (make_shared op ins).
Proof. intros g a g' [= _ <-]. by rewrite length_app. Qed.

Lemma grows_by_transpose_on_input input rank :
  grows_by 2 (transpose_on_input input rank).
Proof.
  intros g a g'. unfold transpose_on_input, Constant_create, bind, make_shared.
  destruct rank as [|[|[|[|[|[|rank]]]]]]; try discriminate;
    intros [= _ <-]; rewrite !length_app; simpl; lia.
Qed.

Lemma grows_by_transpose_on_output input rank :
  grows_by 2 (transpose_on_output input rank).
Proof.
  intros g a g'. unfold transpose_on_output, Constant_create, bind, make_shared.
  destruct rank as [|[|[|[|[|[|rank]]]]]]; try discriminate;
    intros [= _ <-]; rewrite !length_app; simpl; lia.
Qed.

Lemma grows_by_set_friendly_name n name : grows_by 0 (set_friendly_name n name).
Proof. intros g a g' [= _ <-]. rewrite length_alter. lia. Qed.

Lemma length_foldl_alter (f : Node -> Node) (to : list NodeId) (g : Graph) :
  length (foldl (fun g n => alter f n g) g to) = length g.
Proof.
  revert g. induction to as [|n to IH]; intros g; simpl; [done|].
  by rewrite IH, length_alter.
Qed.

Lemma grows_by_copy_runtime_info from to : grows_by 0 (copy_runtime_info from to).
Proof.
  intros g a g'. unfold copy_runtime_info, bind, get_graph, or_throw, modify.
  destruct (g !! from) as [node|]; [|discriminate]. simpl.
  intros [= _ <-]. rewrite length_foldl_alter. lia.
Qed.

Lemma grows_by_replace_node_values n repl : grows_by 0 (replace_node_values n repl).
Proof.
  intros g a g'. unfold replace_node_values, bind, get_graph, or_throw, modify.
  destruct (g !! n) as [node|]; [|discriminate]. simpl.
  destruct (decide _); [|discriminate].
  intros [= _ <-]. rewrite length_fmap. lia.
Qed.

Lemma grows_by_replace_node n r : grows_by 0 (replace_node n r).
Proof.
  intros g a g'. unfold replace_node, bind at 1, get_graph, or_throw.
  destruct (g !! n) as [t|]; [|discriminate]. simpl. unfold bind at 1. simpl.
  destruct (g !! r) as [rn|]; [|discriminate]. simpl. cbv [bind ret].
  destruct (decide _); [|discriminate]. apply grows_by_replace_node_values.
Qed.

Lemma grows_by_if {A} k (b : bool) (m1 m2 : M A) :
  grows_by k m1 -> grows_by k m2 -> grows_by k (if b then m1 else m2).
Proof. by destruct b. Qed.

Create HintDb grows.
#[local] Hint Resolve finishes_ret grows_by_make_shared grows_by_transpose_on_input
  grows_by_transpose_on_output grows_by_set_friendly_name
  grows_by_copy_runtime_info grows_by_replace_node_values grows_by_replace_node
  : grows.
#[local] Hint Extern 1 (grows_by _ (input_value _ _)) =>
  apply reads_only_grows, reads_only_input_value : grows.
#[local] Hint Extern 1 (grows_by _ (get_input_size _)) =>
  apply reads_only_grows, reads_only_get_input_size : grows.
#[local] Hint Extern 1 (grows_by _ (get_friendly_name _)) =>
  apply reads_only_grows, reads_only_get_friendly_name : grows.
#[local] Hint Extern 1 (grows_by _ (transpose_output_shape _ _)) =>
  apply reads_only_grows, reads_only_transpose_output_shape : grows.

(** Each step of the rest of a callback: a bind whose first action appends a
    known number of nodes. *)
Ltac finishes_steps :=
  repeat (eapply finishes_bind; [solve [eauto with grows] | intros ?]);
  apply finishes_ret.

Lemma finishes_weaken {A} j k (v : A) m : finishes j v m -> j = k -> finishes k v m.
Proof. by intros H <-. Qed.

Ltac callback_prefix Hrun :=
  unfold bind at 1, get_graph in Hrun; cbv beta iota in Hrun;
  match type of Hrun with context [if ?b then _ else _] => destruct b end;
  [injection Hrun as <- <-; split; [done | discriminate]|];
  match type of Hrun with context [match ?o with _ => _ end] => destruct o end;
  [|injection Hrun as <- <-; split; [done | discriminate]];
  unfold bind at 1 in Hrun;
  match type of Hrun with
  | context [get_output_partial_shape ?n ?i ?g] =>
      let E := fresh "E" in
      destruct (get_output_partial_shape n i g) as [[? ?]|] eqn:E; [|discriminate];
      apply reads_only_get_output_partial_shape in E; subst
  end;
  cbv beta zeta in Hrun;
  match type of Hrun with
  | context [if ?b then ret false else _] => destruct b
  end;
  [injection Hrun as <- <-; split; [done | discriminate]|].

Ltac callback_rest Hrun k :=
  match type of Hrun with
  | ?m ?g = Ok (?b, ?g') =>
      let H := fresh "H" in
      assert (H : finishes k true m);
      [eapply finishes_weaken; [finishes_steps | reflexivity]|];
      destruct (H _ _ _ Hrun) as [-> ?]; split; [discriminate | done]
  end.

(** X5: the flag a callback returns tells whether it touched the graph,
    whatever node and graph it is run on: when it returns [false] the graph is
    the one it was given, and when it returns [true] it has appended exactly 7
    nodes (convolution and MaxPool-v8) or 5 nodes (MaxPool-v1 and AvgPool). *)
Theorem callback_flag_reports_change
    (tc : Graph -> NodeId -> bool) (pass : LayoutPass) (n : NodeId)
    (g g' : Graph) (changed : bool) :
  callback tc pass n g = Ok (changed, g') ->
  (changed = false -> g' = g)
  /\ (changed = true -> length g' = (length g + added_nodes pass)%nat).
Proof.
  intros Hrun. destruct pass; cbn [callback added_nodes] in *.
  - unfold ConvertArmConvolutionLayout_callback in Hrun.
    callback_prefix Hrun.
    match type of Hrun with
    | ?m ?g = Ok (?b, ?g') => assert (H : finishes 7 true m)
    end.
    { eapply finishes_weaken.
      - do 6 (eapply finishes_bind; [solve [eauto with grows] | intros ?]).
        eapply finishes_bind.
        { apply (grows_by_if 1).
          - rewrite <- (Nat.add_0_l 1). apply grows_by_bind; [|intros ?];
              eauto with grows.
          - eauto with grows. }
        intros ?. finishes_steps.
      - reflexivity. }
    destruct (H _ _ _ Hrun) as [-> ?]. split; [discriminate | done].
  - unfold ConvertArmMaxPoolV1Layout_callback in Hrun.
    callback_prefix Hrun. callback_rest Hrun 5%nat.
  - unfold ConvertArmMaxPoolV8Layout_callback in Hrun.
    callback_prefix Hrun.
    match type of Hrun with
    | context [if ?b then ret false else _] => destruct b
    end; [injection Hrun as <- <-; split; [done | discriminate]|].
    callback_rest Hrun 7%nat.
  - unfold ConvertArmAvgPoolLayout_callback in Hrun.
    callback_prefix Hrun. callback_rest Hrun 5%nat.
Qed.

Lemma callback_flag_reports_change_witness :
  exists g',
    callback never_excluded ConvertArmConvolutionLayout 3 example_graph
    = Ok (true, g')
    /\ (true = false -> g' = example_graph)
    /\ (true = true ->
        length g'
        = (length example_graph + added_nodes ConvertArmConvolutionLayout)%nat).
Proof.
  assert (H : exists g', callback never_excluded ConvertArmConvolutionLayout 3
                           example_graph = Ok (true, g'))
    by (eexists; vm_compute; reflexivity).
  destruct H as [g' H]. exists g'. split; [exact H|].
  exact (callback_flag_reports_change never_excluded ConvertArmConvolutionLayout 3
           example_graph g' true H).
Defined.

(** ** The nodes a pass appends *)

Ltac old_or_new Hin :=
  first [ right; cbn; lia
        | left; rewrite Hin; repeat constructor ].

Ltac appended_facts Hin :=
  split; [reflexivity|];
  split; [reflexivity|];
  split; [repeat (constructor; [cbn; lia|]); solve [constructor]|];
  split; [repeat (constructor; [unfold reads_old_or_new; cbn;
                                repeat (constructor; [old_or_new Hin|]);
                                solve [constructor]|]);
          solve [constructor]|];
  split; [repeat (constructor; [unfold carries_rt_info; cbn;
                                by rewrite ?app_nil_r|]);
          solve [constructor]|];
  do 2 eexists;
  split; [reflexivity|];
  split; [cbn; reflexivity|];
  split; [reflexivity|];
  split; [reflexivity|];
  split; [cbn; lia|];
  cbn; repeat (constructor; [first [ right; cbn; lia
                                   | left; rewrite Hin; repeat constructor ]|]);
  solve [constructor].

Lemma callback_appends tc pass g n node in0 shape :
  g !! n = Some node ->
  root_type pass (node_op node) = true ->
  input_values node !! 0%nat = Some in0 ->
  (expected_inputs pass <= length (input_values node))%nat ->
  length (output_partial_shapes node) = expected_outputs pass ->
  output_partial_shapes node !! 0%nat = Some shape ->
  length shape = 4%nat \/ length shape = 5%nat ->
  tc g n = false ->
  untouched n node ->
  axis_passes_guard (node_op node) (length shape) ->
  exists shape' l repl k,
    permute (input_order (length shape)) shape = Some shape'
    /\ callback tc pass n g = Ok (true, rewire n repl g ++ l)
    /\ appended_by pass g node shape' l repl k.
Proof.
  intros Hn Hroot Hi0 Hins Houts Hs Hrank Htc Hacyc Haxis.
  destruct pass; cbn [callback expected_inputs expected_outputs] in *;
    apply root_type_node in Hroot as [x Hop].
  - destruct (input_values node) as [|i0 [|in1 rest]] eqn:Hin; simpl in Hins; try lia.
    injection Hi0 as ->.
    pose proof (length_1 _ _ Houts Hs) as Hout.
    destruct (conv_run tc g n node x in0 in1 rest shape Hn Hop Hin Hout Hrank Htc Hacyc)
      as (shape' & sA & sW & Hperm & Hrun).
    exists shape'. do 2 eexists. exists 4%nat.
    split; [exact Hperm|]. split; [exact Hrun|].
    unfold appended_by, conv_subgraph. rewrite Hop.
    destruct rest as [|in2 rest]; appended_facts Hin.
  - destruct (lookup_0_cons _ _ Hi0) as [rest Hin].
    pose proof (length_1 _ _ Houts Hs) as Hout.
    destruct (maxpool_v1_run tc g n node x in0 rest shape Hn Hop Hin Hout Hrank Htc Hacyc)
      as (shape' & sA & Hperm & Hrun).
    exists shape'. do 2 eexists. exists 2%nat.
    split; [exact Hperm|]. split; [exact Hrun|].
    unfold appended_by, pool_subgraph. rewrite Hop. appended_facts Hin.
  - destruct (lookup_0_cons _ _ Hi0) as [rest Hin].
    destruct (length_2 _ _ Houts Hs) as [shape1 Hout].
    destruct (maxpool_v8_run tc g n node x in0 rest shape shape1
                Hn Hop Hin Hout Hrank Htc Hacyc Haxis)
      as (shape' & sA & Hperm & Hrun).
    exists shape'. do 2 eexists. exists 2%nat.
    split; [exact Hperm|]. split; [exact Hrun|].
    unfold appended_by, pool_v8_subgraph. rewrite Hop. appended_facts Hin.
  - destruct (lookup_0_cons _ _ Hi0) as [rest Hin].
    pose proof (length_1 _ _ Houts Hs) as Hout.
    destruct (avgpool_run tc g n node x in0 rest shape Hn Hop Hin Hout Hrank Htc Hacyc)
      as (shape' & sA & Hperm & Hrun).
    exists shape'. do 2 eexists. exists 2%nat.
    split; [exact Hperm|]. split; [exact Hrun|].
    unfold appended_by, pool_subgraph. rewrite Hop. appended_facts Hin.
Qed.

(** ** When a callback rewrites *)

Lemma callback_no_output tc pass g n node :
  tc g n = false ->
  is_root pass g n = true ->
  g !! n = Some node ->
  output_partial_shapes node !! 0%nat = None ->
  callback tc pass n g = Throw out_of_range.
Proof.
  intros Htc Hroot Hn Hs.
  assert (E : get_output_partial_shape n 0 g = Throw out_of_range).
  { unfold get_output_partial_shape, bind, get_graph, or_throw.
    rewrite Hn. simpl. by rewrite Hs. }
  unfold is_root in Hroot. rewrite Hn in Hroot.
  destruct pass; cbn [callback];
    [unfold ConvertArmConvolutionLayout_callback
    |unfold ConvertArmMaxPoolV1Layout_callback
    |unfold ConvertArmMaxPoolV8Layout_callback
    |unfold ConvertArmAvgPoolLayout_callback];
    unfold bind at 1, get_graph; cbv beta iota; rewrite Htc; unfold as_type_ptr;
    rewrite Hn; destruct (node_op node); try discriminate Hroot;
    [cbn [as_ArmConvolution]|cbn [as_ArmMaxPoolV1]
    |cbn [as_ArmMaxPoolV8]|cbn [as_ArmAvgPool]];
    unfold bind at 1; by rewrite E.
Qed.

(** X6: a callback rewrites only what it is meant for.  If it returns
    [true], then [transformation_callback] did not exclude the node, the node
    is of the operator type of the pass, the rank of its output 0 is 4 or 5
    and, for MaxPool-v8, the axis is at most 1 and not one of
    [-rank .. -1]. *)
Theorem callback_rewrites_only_supported_nodes
    (tc : Graph -> NodeId -> bool) (pass : LayoutPass) (n : NodeId) (g g' : Graph) :
  callback tc pass n g = Ok (true, g') ->
  tc g n = false
  /\ exists node shape,
       g !! n = Some node
       /\ root_type pass (node_op node) = true
       /\ output_partial_shapes node !! 0%nat = Some shape
       /\ (length shape = 4%nat \/ length shape = 5%nat)
       /\ axis_passes_guard (node_op node) (length shape).
Proof.
  intros Hrun.
  destruct (tc g n) eqn:Htc;
    [rewrite (callback_excluded _ pass _ _ Htc) in Hrun; discriminate|].
  split; [done|].
  destruct (is_root pass g n) eqn:Hroot;
    [|rewrite (callback_not_root tc _ _ _ Hroot) in Hrun; discriminate].
  pose proof Hroot as Hroot'. unfold is_root in Hroot'.
  destruct (g !! n) as [node|] eqn:Hn; [|discriminate].
  destruct (output_partial_shapes node !! 0%nat) as [shape|] eqn:Hs;
    [|rewrite (callback_no_output tc _ _ _ _ Htc Hroot Hn Hs) in Hrun; discriminate].
  exists node, shape. do 3 (split; [done|]).
  assert (Hrank : length shape = 4%nat \/ length shape = 5%nat).
  { destruct (decide ((length shape < 4)%nat \/ (5 < length shape)%nat)) as [H|H];
      [|lia].
    rewrite (callback_rank_unsupported tc pass g n node shape Hn Hs H) in Hrun.
    discriminate. }
  split; [done|].
  destruct pass; destruct (node_op node) eqn:Hop; try discriminate Hroot';
    cbn [axis_passes_guard]; try exact I.
  destruct (decide (1 < ArmMaxPoolV8.get_axis pool
                    \/ - Z.of_nat (length shape) <= ArmMaxPoolV8.get_axis pool < 0))
    as [H|H]; [|lia].
  cbn [callback] in Hrun.
  rewrite (maxpool_v8_axis_blocked tc g n node pool shape Hn Hop Hs Hrank H) in Hrun.
  discriminate.
Qed.

Lemma callback_rewrites_only_supported_nodes_witness :
  exists g',
    callback never_excluded ConvertArmAvgPoolLayout 5 example_graph = Ok (true, g')
    /\ never_excluded example_graph 5%nat = false
    /\ exists node shape,
         example_graph !! 5%nat = Some node
         /\ root_type ConvertArmAvgPoolLayout (node_op node) = true
         /\ output_partial_shapes node !! 0%nat = Some shape
         /\ (length shape = 4%nat \/ length shape = 5%nat)
         /\ axis_passes_guard (node_op node) (length shape).
Proof.
  assert (H : exists g', callback never_excluded ConvertArmAvgPoolLayout 5 example_graph
                         = Ok (true, g')) by (eexists; vm_compute; reflexivity).
  destruct H as [g' H]. exists g'. split; [exact H|].
  exact (callback_rewrites_only_supported_nodes never_excluded
           ConvertArmAvgPoolLayout 5 example_graph g' H).
Defined.

(** ** The graph after a rewrite *)

Lemma lookup_rewired n repl (g l : Graph) m x :
  (rewire n repl g ++ l) !! m = Some x ->
  (exists old, g !! m = Some old
               /\ x = with_input_values (replace_source_output n repl) old)
  \/ (exists k, m = (length g + k)%nat /\ l !! k = Some x).
Proof.
  intros H. destruct (decide (m < length g)%nat) as [Hlt|Hge].
  - left. destruct (lookup_lt_is_Some_2 g m Hlt) as [old Hold].
    exists old. split; [done|].
    rewrite (lookup_rewired_old n repl g l m old Hold) in H. by injection H.
  - right. exists (m - length g)%nat. split; [lia|].
    replace m with (length g + (m - length g))%nat in H by lia.
    by rewrite lookup_rewired_new in H.
Qed.

Lemma length_rewired n repl (g l : Graph) :
  length (rewire n repl g ++ l) = (length g + length l)%nat.
Proof. by rewrite length_app, length_rewire. Qed.

(** X8: on a node it rewrites, a pass gives the run-time info of the original
    node to the replacement operator and to every transpose it adds, but not
    to the permutation constants, which carry none; the run-time info of the
    nodes that were in the graph is not changed. *)
Theorem layout_pass_copies_runtime_info
    (tc : Graph -> NodeId -> bool) (pass : LayoutPass) (g : Graph) (n : NodeId)
    (node : Node) (in0 : Output) (shape : PartialShape) :
  g !! n = Some node ->
  root_type pass (node_op node) = true ->
  input_values node !! 0%nat = Some in0 ->
  (expected_inputs pass <= length (input_values node))%nat ->
  length (output_partial_shapes node) = expected_outputs pass ->
  output_partial_shapes node !! 0%nat = Some shape ->
  length shape = 4%nat \/ length shape = 5%nat ->
  tc g n = false ->
  untouched n node ->
  axis_passes_guard (node_op node) (length shape) ->
  exists g',
    callback tc pass n g = Ok (true, g')
    /\ (forall m new, (length g <= m)%nat -> g' !! m = Some new ->
                      carries_rt_info node new)
    /\ (forall m old, g !! m = Some old ->
                      rt_info <$> g' !! m = Some (rt_info old)).
Proof.
  intros Hn Hroot Hi0 Hins Houts Hs Hrank Htc Hacyc Haxis.
  destruct (callback_appends tc pass g n node in0 shape
              Hn Hroot Hi0 Hins Houts Hs Hrank Htc Hacyc Haxis)
    as (shape' & l & repl & k & _ & Hrun & _ & _ & _ & _ & Hrt & _).
  eexists. split; [exact Hrun|]. split.
  - intros m new Hm Hlook.
    apply lookup_rewired in Hlook as [(old & Hold & _) | (j & -> & Hj)].
    + apply lookup_lt_Some in Hold. lia.
    + rewrite Forall_forall in Hrt. apply Hrt. by apply list_elem_of_lookup_2 with j.
  - intros m old Hold. by rewrite (lookup_rewired_old n repl g l m old Hold).
Qed.

Lemma layout_pass_copies_runtime_info_witness :
  example_graph !! 3%nat = Some example_conv_node
  /\ rt_info example_conv_node = [("origin", "conv")]%string
  /\ exists g',
       callback never_excluded ConvertArmConvolutionLayout 3 example_graph
       = Ok (true, g')
       /\ (forall m new, (length example_graph <= m)%nat -> g' !! m = Some new ->
                         carries_rt_info example_conv_node new)
       /\ (forall m old, example_graph !! m = Some old ->
                         rt_info <$> g' !! m = Some (rt_info old)).
Proof.
  split; [reflexivity|]. split; [reflexivity|].
  apply (layout_pass_copies_runtime_info never_excluded ConvertArmConvolutionLayout
           example_graph 3 example_conv_node (mkOutput 0 0) (dims [1; 8; 30; 30]));
    [reflexivity | reflexivity | reflexivity | simpl; lia | reflexivity
    | reflexivity | by left | reflexivity | | exact I].
  repeat constructor; simpl; lia.
Defined.

(** X9: after a rewrite no node reads the original node any more, provided
    every input that read it read one of the outputs it has: the original
    operator is left without consumers. *)
Theorem layout_pass_disconnects_original
    (tc : Graph -> NodeId -> bool) (pass : LayoutPass) (g : Graph) (n : NodeId)
    (node : Node) (in0 : Output) (shape : PartialShape) :
  g !! n = Some node ->
  root_type pass (node_op node) = true ->
  input_values node !! 0%nat = Some in0 ->
  (expected_inputs pass <= length (input_values node))%nat ->
  length (output_partial_shapes node) = expected_outputs pass ->
  output_partial_shapes node !! 0%nat = Some shape ->
  length shape = 4%nat \/ length shape = 5%nat ->
  tc g n = false ->
  untouched n node ->
  axis_passes_guard (node_op node) (length shape) ->
  (forall m old o, g !! m = Some old -> o ∈ input_values old -> get_node o = n ->
                   (get_index o < expected_outputs pass)%nat) ->
  exists g',
    callback tc pass n g = Ok (true, g')
    /\ forall m x o, g' !! m = Some x -> o ∈ input_values x -> get_node o <> n.
Proof.
  intros Hn Hroot Hi0 Hins Houts Hs Hrank Htc Hacyc Haxis Hidx.
  destruct (callback_appends tc pass g n node in0 shape
              Hn Hroot Hi0 Hins Houts Hs Hrank Htc Hacyc Haxis)
    as (shape' & l & repl & k & _ & Hrun & _ & Hlen & Hrepl & Hreads & _).
  pose proof (lookup_lt_Some _ _ _ Hn) as Hlt.
  eexists. split; [exact Hrun|].
  intros m x o Hlook Ho.
  apply lookup_rewired in Hlook as [(old & Hold & ->) | (j & -> & Hj)].
  - cbn in Ho. apply list_elem_of_fmap in Ho as (o0 & -> & Ho0).
    unfold replace_source_output. destruct (decide (get_node o0 = n)) as [E|E]; [|done].
    pose proof (Hidx m old o0 Hold Ho0 E) as Hi. rewrite <- Hlen in Hi.
    destruct (lookup_lt_is_Some_2 repl _ Hi) as [r Hr]. rewrite Hr. simpl.
    rewrite Forall_forall in Hrepl.
    pose proof (Hrepl r (list_elem_of_lookup_2 _ _ _ Hr)). lia.
  - rewrite Forall_forall in Hreads.
    pose proof (Hreads x (list_elem_of_lookup_2 _ _ _ Hj)) as Hx.
    unfold reads_old_or_new in Hx. rewrite Forall_forall in Hx.
    destruct (Hx o Ho) as [Hold | Hnew]; [|lia].
    unfold untouched in Hacyc. rewrite Forall_forall in Hacyc. by apply Hacyc.
Qed.

Lemma example_graph_reads_existing_outputs m old o :
  example_graph !! m = Some old -> o ∈ input_values old ->
  (get_index o < 2)%nat /\ (get_node o = 3%nat -> (get_index o < 1)%nat)
  /\ (get_node o < length example_graph)%nat.
Proof.
  intros Hm Ho.
  do 11 (destruct m as [|m]; [injection Hm as <-; cbn in Ho;
    repeat (apply elem_of_cons in Ho as [-> | Ho]; [cbn; lia|]);
    by apply elem_of_nil in Ho|]).
  discriminate.
Qed.

Lemma layout_pass_disconnects_original_witness :
  example_graph !! 3%nat = Some example_conv_node
  /\ input_values <$> example_graph !! 4%nat = Some [mkOutput 3 0]
  /\ exists g',
       callback never_excluded ConvertArmConvolutionLayout 3 example_graph
       = Ok (true, g')
       /\ forall m x o, g' !! m = Some x -> o ∈ input_values x ->
                        get_node o <> 3%nat.
Proof.
  split; [reflexivity|]. split; [reflexivity|].
  apply (layout_pass_disconnects_original never_excluded ConvertArmConvolutionLayout
           example_graph 3 example_conv_node (mkOutput 0 0) (dims [1; 8; 30; 30]));
    [reflexivity | reflexivity | reflexivity | simpl; lia | reflexivity
    | reflexivity | by left | reflexivity | | exact I | ].
  - repeat constructor; simpl; lia.
  - intros m old o Hm Ho E.
    by apply (example_graph_reads_existing_outputs m old o Hm Ho).
Defined.

(** X10: a rewrite keeps the graph closed: if every input of every node was
    fed by a node of the graph before, that is so afterwards. *)
Theorem layout_pass_keeps_graph_closed
    (tc : Graph -> NodeId -> bool) (pass : LayoutPass) (g : Graph) (n : NodeId)
    (node : Node) (in0 : Output) (shape : PartialShape) :
  g !! n = Some node ->
  root_type pass (node_op node) = true ->
  input_values node !! 0%nat = Some in0 ->
  (expected_inputs pass <= length (input_values node))%nat ->
  length (output_partial_shapes node) = expected_outputs pass ->
  output_partial_shapes node !! 0%nat = Some shape ->
  length shape = 4%nat \/ length shape = 5%nat ->
  tc g n = false ->
  untouched n node ->
  axis_passes_guard (node_op node) (length shape) ->
  closed g ->
  exists g', callback tc pass n g = Ok (true, g') /\ closed g'.
Proof.
  intros Hn Hroot Hi0 Hins Houts Hs Hrank Htc Hacyc Haxis Hclosed.
  destruct (callback_appends tc pass g n node in0 shape
              Hn Hroot Hi0 Hins Houts Hs Hrank Htc Hacyc Haxis)
    as (shape' & l & repl & k & _ & Hrun & _ & Hlen & Hrepl & Hreads & _).
  eexists. split; [exact Hrun|].
  intros m x o Hlook Ho. rewrite length_rewired.
  apply lookup_rewired in Hlook as [(old & Hold & ->) | (j & -> & Hj)].
  - cbn in Ho. apply list_elem_of_fmap in Ho as (o0 & -> & Ho0).
    pose proof (Hclosed m old o0 Hold Ho0) as Hc.
    unfold replace_source_output. destruct (decide (get_node o0 = n)) as [E|E]; [|lia].
    destruct (repl !! get_index o0) as [r|] eqn:Hr; simpl; [|lia].
    rewrite Forall_forall in Hrepl.
    pose proof (Hrepl r (list_elem_of_lookup_2 _ _ _ Hr)). lia.
  - rewrite Forall_forall in Hreads.
    pose proof (Hreads x (list_elem_of_lookup_2 _ _ _ Hj)) as Hx.
    unfold reads_old_or_new in Hx. rewrite Forall_forall in Hx.
    destruct (Hx o Ho) as [Hold | Hnew]; [|lia].
    pose proof (Hclosed n node o Hn Hold). lia.
Qed.

Lemma layout_pass_keeps_graph_closed_witness :
  example_graph !! 6%nat = Some example_pool8_node
  /\ closed example_graph
  /\ exists g',
       callback never_excluded ConvertArmMaxPoolV8Layout 6 example_graph
       = Ok (true, g')
       /\ closed g'.
Proof.
  split; [reflexivity|].
  assert (Hclosed : closed example_graph).
  { intros m old o Hm Ho.
    by apply (example_graph_reads_existing_outputs m old o Hm Ho). }
  split; [exact Hclosed|].
  apply (layout_pass_keeps_graph_closed never_excluded ConvertArmMaxPoolV8Layout
           example_graph 6 example_pool8_node (mkOutput 5 0) (dims [1; 8; 3; 3]));
    [reflexivity | reflexivity | reflexivity | simpl; lia | reflexivity
    | reflexivity | by left | reflexivity | | simpl; lia | exact Hclosed].
  repeat constructor; simpl; lia.
Defined.

(** ** Running a pass on what it built *)

Lemma permute_input_length {A} (shape shape' : list A) rank :
  length shape = rank -> rank = 4%nat \/ rank = 5%nat ->
  permute (input_order rank) shape = Some shape' -> length shape' = rank.
Proof.
  intros Hlen [-> | ->].
  - destruct shape as [|a [|b [|c [|d [|e shape]]]]]; try discriminate.
    by intros [= <-].
  - destruct shape as [|a [|b [|c [|d [|e [|f shape]]]]]]; try discriminate.
    by intros [= <-].
Qed.

Lemma axis_passes_guard_relayout op shape' rank :
  axis_passes_guard (relayout op shape') rank <-> axis_passes_guard op rank.
Proof. by destruct op. Qed.

(** X11: nothing marks an operator as already converted.  When
    [transformation_callback] excludes no node, the operator a pass has built
    is itself rewritten by the same callback: a second run wraps it in
    transposes once more. *)
Theorem layout_pass_rewrites_its_own_result
    (tc : Graph -> NodeId -> bool) (pass : LayoutPass) (g : Graph) (n : NodeId)
    (node : Node) (in0 : Output) (shape : PartialShape) :
  g !! n = Some node ->
  root_type pass (node_op node) = true ->
  input_values node !! 0%nat = Some in0 ->
  (expected_inputs pass <= length (input_values node))%nat ->
  length (output_partial_shapes node) = expected_outputs pass ->
  output_partial_shapes node !! 0%nat = Some shape ->
  length shape = 4%nat \/ length shape = 5%nat ->
  (forall g0 m, tc g0 m = false) ->
  untouched n node ->
  axis_passes_guard (node_op node) (length shape) ->
  Forall (fun o => (get_node o < length g)%nat) (input_values node) ->
  exists g' new_op nop g'',
    callback tc pass n g = Ok (true, g')
    /\ (length g <= new_op)%nat
    /\ g' !! new_op = Some nop
    /\ root_type pass (node_op nop) = true
    /\ callback tc pass new_op g' = Ok (true, g'').
Proof.
  intros Hn Hroot Hi0 Hins Houts Hs Hrank Htc Hacyc Haxis Hold.
  destruct (callback_appends tc pass g n node in0 shape
              Hn Hroot Hi0 Hins Houts Hs Hrank (Htc g n) Hacyc Haxis)
    as (shape' & l & repl & k & Hperm & Hrun & _ & _ & _ & _ & _ & Hop).
  destruct Hop as (nop & in0' & Hk & Hnop & Houts' & Hi0' & Hins' & Hself).
  pose proof (permute_input_length _ _ _ eq_refl Hrank Hperm) as Hlen'.
  assert (Hlook : (rewire n repl g ++ l) !! (length g + k)%nat = Some nop)
    by (by rewrite lookup_rewired_new).
  assert (Hroot' : root_type pass (node_op nop) = true)
    by (by rewrite Hnop, root_type_relayout).
  assert (Hrank' : length shape' = 4%nat \/ length shape' = 5%nat) by lia.
  destruct (callback_appends tc pass (rewire n repl g ++ l) (length g + k) nop
              in0' shape') as (shape'' & l' & repl' & k' & _ & Hrun' & _);
    try done.
  - by rewrite Houts', length_replicate.
  - rewrite Houts'. by destruct pass.
  - unfold untouched. rewrite Forall_forall in Hself, Hold |- *.
    intros o Ho. destruct (Hself o Ho) as [Hin | [_ Hne]]; [|done].
    pose proof (Hold o Hin). lia.
  - rewrite Hnop, Hlen'. by apply axis_passes_guard_relayout.
  - exists (rewire n repl g ++ l), (length g + k)%nat, nop. eexists.
    split; [exact Hrun|]. split; [lia|]. split; [exact Hlook|].
    split; [exact Hroot'|]. exact Hrun'.
Qed.

Lemma layout_pass_rewrites_its_own_result_witness :
  example_graph !! 4%nat
  = Some (mkNode (OpArmMaxPoolV1 example_pool_v1) [mkOutput 3 0]
                 [dims [1; 8; 15; 15]] "pool1" [])
  /\ exists g' new_op nop g'',
       callback never_excluded ConvertArmMaxPoolV1Layout 4 example_graph
       = Ok (true, g')
       /\ (length example_graph <= new_op)%nat
       /\ g' !! new_op = Some nop
       /\ root_type ConvertArmMaxPoolV1Layout (node_op nop) = true
       /\ callback never_excluded ConvertArmMaxPoolV1Layout new_op g'
          = Ok (true, g'').
Proof.
  split; [reflexivity|].
  apply (layout_pass_rewrites_its_own_result never_excluded
           ConvertArmMaxPoolV1Layout example_graph 4
           (mkNode (OpArmMaxPoolV1 example_pool_v1) [mkOutput 3 0]
                   [dims [1; 8; 15; 15]] "pool1" [])
           (mkOutput 3 0) (dims [1; 8; 15; 15]));
    [reflexivity | reflexivity | reflexivity | simpl; lia | reflexivity
    | reflexivity | by left | reflexivity | | exact I | ].
  - repeat constructor; simpl; lia.
  - repeat constructor; simpl; lia.
Defined.

(** The second run on the example: the pool built by the first run, at
    position 13, is rewritten in turn, and its declared output shape is
    permuted a second time. *)
Example maxpool_v1_pass_twice_on_example :
  exists g' g'',
    callback never_excluded ConvertArmMaxPoolV1Layout 4 example_graph = Ok (true, g')
    /\ callback never_excluded ConvertArmMaxPoolV1Layout 13 g' = Ok (true, g'')
    /\ (declared_output_shape ∘ node_op) <$> g' !! 13%nat
       = Some (Some (dims [1; 15; 15; 8]))
    /\ (declared_output_shape ∘ node_op) <$> g'' !! 18%nat
       = Some (Some (dims [1; 15; 8; 15])).
Proof. do 2 eexists. vm_compute. repeat split. Qed.
